(** * LiteGS helper scripts: [scripts/prepare_video.py] and [scripts/run_colmap.py]

    Both scripts are orchestration wrappers around an external executable
    (ffmpeg, COLMAP).  They are embedded here as programs of a small
    state-and-exception monad over a file tree; every action a script performs
    on its surroundings (PATH lookup, existence test, directory creation,
    directory listing, subprocess, print) is recorded, in order, in a trace;
    a subprocess is recorded with the file tree it started from and the one
    it left.
    The external executables are opaque: each subprocess is a function from
    the command line and the file tree to a completed process and a new file
    tree.  So is what the platform and the Python library decide on their
    own: the PATH lookup, path resolution, the matching of a file name
    against a pattern, and argparse's reading of the command-line tokens. *)

From Stdlib Require Import String Ascii List ZArith Bool Lia.
From Stdlib Require Import DecimalString.
Import ListNotations.
Set Warnings "-register-all".
Open Scope string_scope.

(** ** Python values used by the scripts *)

(** [str(n)] for a Python [int]. *)
Definition str_int (z : Z) : string := NilZero.string_of_int (Z.to_int z).

(** [str(len(l))]. *)
Definition str_nat (n : nat) : string := NilZero.string_of_uint (Nat.to_uint n).

(** Truth value of an [Optional[str]]: [None] and the empty string are false. *)
Definition truthy (o : option string) : bool :=
  match o with
  | Some s => negb (s =? "")
  | None => false
  end.

(** Truth value of a list. *)
Definition nonempty {A} (l : list A) : bool :=
  match l with
  | [] => false
  | _ :: _ => true
  end.

(** [' '.join(cmd)]. *)
Definition join_cmd (cmd : list string) : string := String.concat " " cmd.

(** [sorted(l)] on names, by insertion. *)
Fixpoint insert_sorted (x : string) (l : list string) : list string :=
  match l with
  | [] => [x]
  | y :: l' => if String.leb x y then x :: l else y :: insert_sorted x l'
  end.

Definition sorted (l : list string) : list string :=
  fold_right insert_sorted [] l.

(** ** Paths and the file tree *)

(** A resolved absolute path, as its components below the root. *)
Definition path := list string.

(** [p / c] of pathlib. *)
Definition child (p : path) (c : string) : path := (p ++ [c])%list.
Infix "//" := child (at level 40, left associativity).

(** [str(p)] for a resolved path. *)
Definition str_path (p : path) : string := "/" ++ String.concat "/" p.

(** [p.parents[i]]: the path without its last [i + 1] components, [None]
    (Python's [IndexError]) when there are not that many. *)
Definition parents (p : path) (i : nat) : option path :=
  if (length p <=? i)%nat then None else Some (firstn (length p - S i) p).

Inductive node : Type :=
| File (content : string)
| Dir (entries : list (string * node)).

Fixpoint assoc {A} (k : string) (es : list (string * A)) : option A :=
  match es with
  | [] => None
  | (k', v) :: es' => if k =? k' then Some v else assoc k es'
  end.

Fixpoint replace {A} (k : string) (v : A) (es : list (string * A)) : list (string * A) :=
  match es with
  | [] => []
  | (k', v') :: es' => if k =? k' then (k', v) :: es' else (k', v') :: replace k v es'
  end.

(** The node a path leads to, if any. *)
Fixpoint lookup (p : path) (n : node) : option node :=
  match p with
  | [] => Some n
  | c :: p' =>
      match n with
      | File _ => None
      | Dir es =>
          match assoc c es with
          | Some ch => lookup p' ch
          | None => None
          end
      end
  end.

Definition is_dir (p : path) (fs : node) : bool :=
  match lookup p fs with
  | Some (Dir _) => true
  | _ => false
  end.

Definition path_exists (p : path) (fs : node) : bool :=
  match lookup p fs with
  | Some _ => true
  | None => false
  end.

(** ** Exceptions, completed processes, events *)

Inductive exn : Type :=
| FileNotFoundError (msg : string)
| FileExistsError (msg : string)
| NotADirectoryError (msg : string)
| IndexError (msg : string)
| RuntimeError (msg : string)
| SystemExit (code : Z).

(** [isinstance(e, Exception)]: [SystemExit] derives from [BaseException] only. *)
Definition is_Exception (e : exn) : bool :=
  match e with
  | SystemExit _ => false
  | _ => true
  end.

(** [str(e)]. *)
Definition str_exn (e : exn) : string :=
  match e with
  | FileNotFoundError m | FileExistsError m | NotADirectoryError m
  | IndexError m | RuntimeError m => m
  | SystemExit c => str_int c
  end.

(** What [subprocess.run] returns for a finished child.  [wait_code] is what
    the surroundings report for it; [returncode] is the number Python
    derives: the exit status, 0 to 255, of a child that exited, and minus the
    signal number for one that was killed, so always strictly between -256
    and 256. *)
Record CompletedProcess : Type := mkProc {
  wait_code : Z;
  stdout : string;
  stderr : string
}.

Definition returncode (proc : CompletedProcess) : Z := Z.rem (wait_code proc) 256.

Inductive event : Type :=
| EvWhich (name : string) (found : option string)
| EvExists (p : path) (found : bool)
| EvMkdir (p : path)
| EvGlob (dir : path) (pat : string) (found : list string)
| EvRun (cmd : list string) (before : node) (proc : CompletedProcess) (after : node)
| EvPrint (line : string)
| EvPrintErr (line : string)
| EvTraceback (e : exn).

Definition is_run (e : event) : bool :=
  match e with
  | EvRun _ _ _ _ => true
  | _ => false
  end.

Definition is_mkdir (e : event) : bool :=
  match e with
  | EvMkdir _ => true
  | _ => false
  end.

(** ** [Path.mkdir(parents=..., exist_ok=...)] on the file tree

    [os.mkdir] fails with [EEXIST] when the path exists, with [ENOENT] when
    its parent is missing and with [ENOTDIR] when a component of the path is
    a regular file; [parents=True] creates the missing ancestors,
    [exist_ok=True] accepts an existing directory (not an existing file). *)
Inductive errno : Type := EEXIST | ENOENT | ENOTDIR.

Fixpoint mkdir_tree (parents_ exist_ok : bool) (p : path) (n : node) : errno + node :=
  match n with
  | File _ => inl ENOTDIR
  | Dir es =>
      match p with
      | [] => if exist_ok then inr n else inl EEXIST
      | c :: p' =>
          match assoc c es with
          | Some ch =>
              match p', ch with
              | [], File _ => inl EEXIST
              | _, _ =>
                  match mkdir_tree parents_ exist_ok p' ch with
                  | inr ch' => inr (Dir (replace c ch' es))
                  | inl e => inl e
                  end
              end
          | None =>
              match p' with
              | [] => inr (Dir (es ++ [(c, Dir [])])%list)
              | _ :: _ =>
                  if parents_ then
                    match mkdir_tree parents_ exist_ok p' (Dir []) with
                    | inr ch' => inr (Dir (es ++ [(c, ch')])%list)
                    | inl e => inl e
                    end
                  else inl ENOENT
              end
          end
      end
  end.

(** The [OSError] subclass Python raises for an error number on path [p]. *)
Definition os_error (e : errno) (p : path) : exn :=
  match e with
  | EEXIST => FileExistsError ("[Errno 17] File exists: '" ++ str_path p ++ "'")
  | ENOENT => FileNotFoundError ("[Errno 2] No such file or directory: '" ++ str_path p ++ "'")
  | ENOTDIR => NotADirectoryError ("[Errno 20] Not a directory: '" ++ str_path p ++ "'")
  end.

(** ** The monad of script actions

    An action takes the file tree and returns a value or a raised exception,
    the new file tree, and the events it performed, oldest first. *)
Definition M (A : Type) : Type := node -> (exn + A) * node * list event.

Definition ret {A} (a : A) : M A := fun fs => (inr a, fs, []).

Definition raise {A} (e : exn) : M A := fun fs => (inl e, fs, []).

Definition bind {A B} (m : M A) (k : A -> M B) : M B :=
  fun fs =>
    match m fs with
    | (inr a, fs1, t1) =>
        match k a fs1 with
        | (r, fs2, t2) => (r, fs2, (t1 ++ t2)%list)
        end
    | (inl e, fs1, t1) => (inl e, fs1, t1)
    end.

(** [try: m  except Exception as e: h e]. *)
Definition try_except {A} (m : M A) (h : exn -> M A) : M A :=
  fun fs =>
    match m fs with
    | (inl e, fs1, t1) =>
        if is_Exception e then
          match h e fs1 with
          | (r, fs2, t2) => (r, fs2, (t1 ++ t2)%list)
          end
        else (inl e, fs1, t1)
    | r => r
    end.

Definition emit (e : event) : M unit := fun fs => (inr tt, fs, [e]).

Definition lift {A} (r : exn + A) : M A :=
  match r with
  | inr a => ret a
  | inl e => raise e
  end.

Declare Scope py_scope.
Delimit Scope py_scope with py.
Notation "x <- m ;; k" := (bind m (fun x => k))
  (at level 100, m at next level, right associativity) : py_scope.
Notation "m ;; k" := (bind m (fun _ => k))
  (at level 100, right associativity) : py_scope.
Open Scope py_scope.

Definition print (s : string) : M unit := emit (EvPrint s).
Definition print_err (s : string) : M unit := emit (EvPrintErr s).

(** [if s: act s] for a captured stream. *)
Definition when_text (s : string) (act : string -> M unit) : M unit :=
  if s =? "" then ret tt else act s.

(** [p.exists()]. *)
Definition exists_ (p : path) : M bool :=
  fun fs => (inr (path_exists p fs), fs, [EvExists p (path_exists p fs)]).

(** [p.mkdir(parents=..., exist_ok=...)]. *)
Definition mkdir (p : path) (parents_ exist_ok : bool) : M unit :=
  fun fs =>
    match mkdir_tree parents_ exist_ok p fs with
    | inr fs' => (inr tt, fs', [EvMkdir p])
    | inl e => (inl (os_error e p), fs, [EvMkdir p])
    end.

(** The status a process that calls [exit(code)] leaves to its parent: the
    low eight bits of [code], so [exit(-9)] is seen as 247 and [exit(256)]
    as 0. *)
Definition exit_status (code : Z) : Z := (code mod 256)%Z.

(** The interpreter's handling of [sys.exit(main())]: the value [main]
    returns is handed to [exit]; [SystemExit(c)] does the same with [c]; any
    other exception that reaches the top level prints a traceback and leaves
    with status 1. *)
Definition sys_exit (r : (exn + Z) * node * list event) : Z * node * list event :=
  match r with
  | (inr code, fs, t) => (exit_status code, fs, t)
  | (inl (SystemExit c), fs, t) => (exit_status c, fs, t)
  | (inl e, fs, t) => (1%Z, fs, (t ++ [EvTraceback e])%list)
  end.

Definition exit_code (r : Z * node * list event) : Z := fst (fst r).
Definition final_fs (r : Z * node * list event) : node := snd (fst r).
Definition trace (r : Z * node * list event) : list event := snd r.

(** ** Command-line parsing: what a parser declares

    One [add_argument] call: the option's name, what it does when the command
    line selects it, how its value is converted, the values it is restricted
    to, whether it must be given, and its default. *)
Inductive value : Type :=
| VNone
| VStr (s : string)
| VInt (z : Z)
| VBool (b : bool).

Inductive arg_action : Type := Store | StoreTrue.
Inductive arg_type : Type := TStr | TInt.

Record Argument : Type := mkArgument {
  flag : string;
  action : arg_action;
  type_ : arg_type;
  choices : option (list string);
  required : bool;
  default : value
}.

(** The attribute an option is stored under: for the names declared here,
    the name without its two leading dashes. *)
Definition dest (a : Argument) : string :=
  match flag a with
  | String "-" (String "-" d) => d
  | s => s
  end.

(** What the library makes of the tokens of a command line: the options they
    select, in order, each under its destination and with its converted
    value, and the tokens it could not place. *)
Record Scan : Type := mkScan {
  selected : list (string * value);
  extras : list string
}.

(** ** The surroundings a script runs in: operating system and libraries *)
Record OS : Type := mkOS {
  (** [shutil.which(name)]: the PATH lookup. *)
  which : string -> option string;
  (** [Path(s).expanduser().resolve()]. *)
  resolve : string -> path;
  (** The resolved [__file__] of the running script. *)
  script_file : path;
  (** What running a command line does: its completed process and the file
      tree it leaves. *)
  spawn : list string -> node -> CompletedProcess * node;
  (** Whether a file name matches a shell-style pattern, as [Path.glob]
      decides it on this platform (letter case counts on POSIX and does not
      on Windows). *)
  fnmatch : string -> string -> bool;
  (** argparse's reading of the tokens against the declared options: which
      spellings select an option (full names, abbreviations, [--opt=value]),
      which tokens are values, [int()] for [type=int], the test against
      [choices]; it raises [SystemExit] itself for [-h] (status 0) and for a
      command line it cannot read (status 2). *)
  argparse_scan : list Argument -> list string -> exn + Scan
}.

Section Actions.
Variable os : OS.

(** The names in directory [dir] that match [pat]; nothing when [dir] is not
    a directory. *)
Definition glob_names (dir : path) (pat : string) (fs : node) : list string :=
  match lookup dir fs with
  | Some (Dir es) => filter (fnmatch os pat) (map fst es)
  | _ => []
  end.

(** [dir.glob(pat)], as the names found in [dir]. *)
Definition glob (dir : path) (pat : string) : M (list string) :=
  fun fs => (inr (glob_names dir pat fs), fs, [EvGlob dir pat (glob_names dir pat fs)]).

(** [shutil.which(name)]. *)
Definition shutil_which (name : string) : M (option string) :=
  fun fs => (inr (which os name), fs, [EvWhich name (which os name)]).

(** [subprocess.run(cmd, stdout=PIPE, stderr=PIPE, text=True)], for a
    command that starts and runs to its end. *)
Definition subprocess_run (cmd : list string) : M CompletedProcess :=
  fun fs =>
    let '(proc, fs') := spawn os cmd fs in
    (inr proc, fs', [EvRun cmd fs proc fs']).
End Actions.

(** ** Command-line parsing: building the namespace

    [parser.parse_args(argv)] starts every destination at its declared
    default, lets each selected option store its value, and then refuses,
    with status 2, a command line that leaves a required option unselected
    or a token unplaced.  The help and usage texts it prints are not
    recorded. *)
Definition usage_error {A} : exn + A := inl (SystemExit 2).

(** [setattr(namespace, k, v)]. *)
Definition setattr (k : string) (v : value) (ns : list (string * value))
    : list (string * value) :=
  match assoc k ns with
  | Some _ => replace k v ns
  | None => (ns ++ [(k, v)])%list
  end.

(** [if not hasattr(namespace, dest): setattr(namespace, dest, default)],
    for each declared option in turn. *)
Definition initial_namespace (parser : list Argument) : list (string * value) :=
  fold_left (fun ns a =>
               match assoc (dest a) ns with
               | Some _ => ns
               | None => setattr (dest a) (default a) ns
               end) parser [].

Definition store_selected (sel : list (string * value)) (ns : list (string * value))
    : list (string * value) :=
  fold_left (fun ns s => setattr (fst s) (snd s) ns) sel ns.

(** A required option the command line did not select. *)
Definition missing_required (parser : list Argument) (sel : list (string * value)) : bool :=
  existsb (fun a => required a && negb (existsb (String.eqb (dest a)) (map fst sel))) parser.

Definition parse_namespace (os : OS) (parser : list Argument) (argv : list string)
    : exn + list (string * value) :=
  match argparse_scan os parser argv with
  | inl e => inl e
  | inr s =>
      if missing_required parser (selected s) then usage_error
      else if nonempty (extras s) then usage_error
      else inr (store_selected (selected s) (initial_namespace parser))
  end.

(** * scripts/prepare_video.py *)
Module prepare_video.

Record Namespace : Type := mkArgs {
  video : string;
  out : string;
  fps : Z;
  overwrite : bool
}.

(** The options [parse_args] declares (lines 33-36). *)
Definition parser : list Argument :=
  [ mkArgument "--video" Store TStr None true VNone;
    mkArgument "--out" Store TStr None true VNone;
    mkArgument "--fps" Store TInt None false (VInt 10);
    mkArgument "--overwrite" StoreTrue TStr None false (VBool false) ].

(** The attributes [main] reads, at the types the declarations give them;
    surroundings that store anything else are treated as a command line that
    was refused. *)
Definition namespace_of (ns : list (string * value)) : exn + Namespace :=
  match assoc "video" ns, assoc "out" ns, assoc "fps" ns, assoc "overwrite" ns with
  | Some (VStr v), Some (VStr o), Some (VInt f), Some (VBool w) => inr (mkArgs v o f w)
  | _, _, _, _ => usage_error
  end.

Definition parse_args (os : OS) (argv : list string) : exn + Namespace :=
  match parse_namespace os parser argv with
  | inl e => inl e
  | inr ns => namespace_of ns
  end.

Section Script.
Variable os : OS.

Definition ensure_ffmpeg : M string :=
  ffmpeg <- shutil_which os "ffmpeg" ;;
  match ffmpeg with
  | Some f =>
      if f =? "" then raise (FileNotFoundError "未找到 ffmpeg，请先安装并加入 PATH。")
      else ret f
  | None => raise (FileNotFoundError "未找到 ffmpeg，请先安装并加入 PATH。")
  end.

(** The paths [main] computes from its arguments. *)
Definition video_path (args : Namespace) : path := resolve os (video args).
Definition out_root (args : Namespace) : path := resolve os (out args).
Definition images_dir (args : Namespace) : path := out_root args // "images".

(** The extraction command line (lines 59-73). *)
Definition extract_cmd (ffmpeg : string) (args : Namespace) : list string :=
  let pattern := images_dir args // "frame_%05d.png" in
  [ ffmpeg;
    if overwrite args then "-y" else "-n";
    "-i";
    str_path (video_path args);
    "-vf";
    "fps=" ++ str_int (fps args);
    "-pix_fmt";
    "rgb24";
    str_path pattern;
    "-hide_banner";
    "-loglevel";
    "error" ].

(** Lines 59-91 of [main]: everything after the overwrite guard. *)
Definition extract (ffmpeg : string) (args : Namespace) : M Z :=
  let cmd := extract_cmd ffmpeg args in
  print ("抽帧命令: " ++ join_cmd cmd) ;;
  proc <- subprocess_run os cmd ;;
  if negb (returncode proc =? 0)%Z then
    (print_err "ffmpeg 抽帧失败:" ;;
     when_text (stdout proc) print_err ;;
     when_text (stderr proc) print_err ;;
     ret (returncode proc))
  else
    (found <- glob os (images_dir args) "frame_*.png" ;;
     let frames := sorted found in
     if negb (nonempty frames) then
       (print_err "未生成任何帧，请检查输入视频/参数。" ;;
        ret 1%Z)
     else
       (print ("完成，生成帧数: " ++ str_nat (length frames)
               ++ "，输出目录: " ++ str_path (images_dir args)) ;;
        ret 0%Z)).

Definition main (argv : list string) : M Z :=
  args <- lift (parse_args os argv) ;;
  ffmpeg <- ensure_ffmpeg ;;
  video_found <- exists_ (video_path args) ;;
  if negb video_found then
    (print_err ("输入视频不存在: " ++ str_path (video_path args)) ;;
     ret 1%Z)
  else
    mkdir (images_dir args) true true ;;
    if negb (overwrite args) then
      (existing <- glob os (images_dir args) "frame_*.png" ;;
       if nonempty existing then
         (print_err ("输出目录已包含帧文件，使用 --overwrite 以覆盖: "
                     ++ str_path (images_dir args)) ;;
          ret 1%Z)
       else extract ffmpeg args)
    else extract ffmpeg args.

(** [sys.exit(main())]. *)
Definition run (argv : list string) (fs : node) : Z * node * list event :=
  sys_exit (main argv fs).
End Script.
End prepare_video.

(** * scripts/run_colmap.py *)
Module run_colmap.

Record Namespace : Type := mkArgs {
  images : string;
  out : string;
  matcher : string;
  single_camera : bool;
  threads : Z
}.

(** The options [parse_args] declares (lines 63-67). *)
Definition parser : list Argument :=
  [ mkArgument "--images" Store TStr None true VNone;
    mkArgument "--out" Store TStr None true VNone;
    mkArgument "--matcher" Store TStr (Some ["exhaustive"; "sequential"]) false
      (VStr "sequential");
    mkArgument "--single_camera" StoreTrue TStr None false (VBool false);
    mkArgument "--threads" Store TInt None false (VInt 8) ].

(** The attributes [main] reads, at the types the declarations give them;
    surroundings that store anything else are treated as a command line that
    was refused. *)
Definition namespace_of (ns : list (string * value)) : exn + Namespace :=
  match assoc "images" ns, assoc "out" ns, assoc "matcher" ns,
        assoc "single_camera" ns, assoc "threads" ns with
  | Some (VStr i), Some (VStr o), Some (VStr m), Some (VBool c), Some (VInt t) =>
      inr (mkArgs i o m c t)
  | _, _, _, _, _ => usage_error
  end.

Definition parse_args (os : OS) (argv : list string) : exn + Namespace :=
  match parse_namespace os parser argv with
  | inl e => inl e
  | inr ns => namespace_of ns
  end.

(** The bundled candidates below [here], in the order they are tried. *)
Definition candidates (here : path) : list path :=
  let bundled := here // "tools" // "colmap" in
  [ bundled // "COLMAP.bat";
    bundled // "bin" // "colmap.exe";
    bundled // "bin" // "colmap" ].

(** [for c in cs: if c.exists(): return str(c)], then [otherwise]. *)
Fixpoint first_existing (cs : list path) (otherwise : M string) : M string :=
  match cs with
  | [] => otherwise
  | c :: cs' =>
      found <- exists_ c ;;
      if found then ret (str_path c) else first_existing cs' otherwise
  end.

Section Script.
Variable os : OS.

(** The paths [main] computes from its arguments. *)
Definition images_path (args : Namespace) : path := resolve os (images args).
Definition out_root (args : Namespace) : path := resolve os (out args).
Definition sparse_dir (args : Namespace) : path := out_root args // "sparse".
Definition db_path (args : Namespace) : path := out_root args // "database.db".
Definition model_dir (args : Namespace) : path := sparse_dir args // "0".

(** The four command lines of [main]. *)
Definition feat_cmd (colmap : string) (args : Namespace) : list string :=
  ([ colmap;
     "feature_extractor";
     "--database_path";
     str_path (db_path args);
     "--image_path";
     str_path (images_path args) ]
   ++ (if single_camera args then ["--ImageReader.single_camera"; "1"] else []))%list.

Definition match_cmd (colmap : string) (args : Namespace) : list string :=
  if matcher args =? "sequential" then
    [colmap; "sequential_matcher"; "--database_path"; str_path (db_path args)]
  else
    [colmap; "exhaustive_matcher"; "--database_path"; str_path (db_path args)].

Definition mapper_cmd (colmap : string) (args : Namespace) : list string :=
  [ colmap;
    "mapper";
    "--database_path";
    str_path (db_path args);
    "--image_path";
    str_path (images_path args);
    "--output_path";
    str_path (sparse_dir args);
    "--Mapper.num_threads";
    str_int (threads args) ].

Definition converter_cmd (colmap : string) (args : Namespace) : list string :=
  [ colmap;
    "model_converter";
    "--input_path";
    str_path (model_dir args);
    "--output_path";
    str_path (model_dir args);
    "--output_type";
    "TXT" ].

Definition ensure_colmap : M string :=
  here <- lift (match parents (script_file os) 1 with
                | Some h => inr h
                | None => inl (IndexError "1")
                end) ;;
  first_existing (candidates here)
    (colmap <- shutil_which os "colmap" ;;
     match colmap with
     | Some c =>
         if c =? "" then
           raise (FileNotFoundError "colmap not found (checked tools/colmap and PATH)")
         else ret c
     | None =>
         raise (FileNotFoundError "colmap not found (checked tools/colmap and PATH)")
     end).

(** [run_cmd(cmd)]; every call in the script leaves [cwd] at [None]. *)
Definition run_cmd (cmd : list string) : M unit :=
  print ("Running: " ++ join_cmd cmd) ;;
  proc <- subprocess_run os cmd ;;
  if negb (returncode proc =? 0)%Z then
    (when_text (stdout proc) print ;;
     when_text (stderr proc) print_err ;;
     raise (RuntimeError ("Command failed with exit code " ++ str_int (returncode proc))))
  else ret tt.

Definition main (argv : list string) : M Z :=
  args <- lift (parse_args os argv) ;;
  colmap <- ensure_colmap ;;
  images_found <- exists_ (images_path args) ;;
  if negb images_found then
    (print_err ("Images folder not found: " ++ str_path (images_path args)) ;;
     ret 1%Z)
  else
    mkdir (out_root args) true true ;;
    mkdir (sparse_dir args) false true ;;
    run_cmd (feat_cmd colmap args) ;;
    run_cmd (match_cmd colmap args) ;;
    run_cmd (mapper_cmd colmap args) ;;
    model_found <- exists_ (model_dir args) ;;
    (if model_found then
       try_except (run_cmd (converter_cmd colmap args))
         (fun e => print_err ("model_converter failed (bin is still usable): "
                              ++ str_exn e))
     else ret tt) ;;
    print ("Done. Sparse model at: " ++ str_path (model_dir args)) ;;
    ret 0%Z.

(** [sys.exit(main())]. *)
Definition run (argv : list string) (fs : node) : Z * node * list event :=
  sys_exit (main argv fs).
End Script.
End run_colmap.

(** The COLMAP subcommand of a command line: the word after the executable. *)
Definition subcommand (cmd : list string) : string := nth 1 cmd "".

(** * Concrete surroundings for running the scripts *)
Module Demo.

(** Components of a slash-separated absolute path without [.], [..] or
    links, which [resolve] leaves as they are. *)
Fixpoint split_slash (s : string) (cur : string) : list string :=
  match s with
  | EmptyString => if cur =? "" then [] else [cur]
  | String "/" s' => if cur =? "" then split_slash s' "" else cur :: split_slash s' ""
  | String c s' => split_slash s' (cur ++ String c EmptyString)
  end.

Definition posix_resolve (s : string) : path := split_slash s "".

(** Put [n] at path [p], creating the directories on the way. *)
Fixpoint put (p : path) (n : node) (fs : node) : node :=
  match p with
  | [] => n
  | c :: p' =>
      let es := match fs with Dir es => es | File _ => [] end in
      match assoc c es with
      | Some ch => Dir (replace c (put p' n ch) es)
      | None => Dir (es ++ [(c, put p' n (Dir []))])%list
      end
  end.

Definition ok : CompletedProcess := mkProc 0 "" "".
Definition failed (rc : Z) : CompletedProcess := mkProc rc "" "boom".

Definition on_path (name : string) : option string := Some ("/usr/bin/" ++ name).
Definition installed_at : path := ["opt"; "litegs"; "scripts"; "run_colmap.py"].

(** Name matching where letter case counts and [*], the one wildcard, stands
    for any run of characters. *)
Fixpoint match_chars (pat name : list ascii) : bool :=
  match pat with
  | [] => match name with [] => true | _ :: _ => false end
  | "*"%char :: pat' =>
      (fix skip (nm : list ascii) : bool :=
         match_chars pat' nm ||
         match nm with
         | [] => false
         | _ :: nm' => skip nm'
         end) name
  | c :: pat' =>
      match name with
      | [] => false
      | d :: name' => Ascii.eqb c d && match_chars pat' name'
      end
  end.

Definition posix_fnmatch (pat name : string) : bool :=
  match_chars (list_ascii_of_string pat) (list_ascii_of_string name).

(** An optional sign and decimal digits. *)
Definition decimal (s : string) : option Z :=
  match s with
  | String "+" rest =>
      match NilZero.uint_of_string rest with
      | Some d => Some (Z.of_uint d)
      | None => None
      end
  | _ =>
      match NilZero.int_of_string s with
      | Some d => Some (Z.of_int d)
      | None => None
      end
  end.

Definition convert (a : Argument) (v : string) : option value :=
  if match choices a with
     | Some cs => existsb (String.eqb v) cs
     | None => true
     end
  then
    match type_ a with
    | TStr => Some (VStr v)
    | TInt => option_map VInt (decimal v)
    end
  else None.

Definition select (d : string) (v : value) (r : exn + Scan) : exn + Scan :=
  match r with
  | inr s => inr (mkScan ((d, v) :: selected s) (extras s))
  | inl e => inl e
  end.

Definition unplaced (tok : string) (r : exn + Scan) : exn + Scan :=
  match r with
  | inr s => inr (mkScan (selected s) (tok :: extras s))
  | inl e => inl e
  end.

(** A reading of the command line that knows full option names only, each
    value in the token after its option. *)
Fixpoint scan_exact (parser : list Argument) (argv : list string) : exn + Scan :=
  match argv with
  | [] => inr (mkScan [] [])
  | tok :: rest =>
      if (tok =? "-h") || (tok =? "--help") then inl (SystemExit 0)
      else
        match find (fun a => flag a =? tok) parser with
        | None => unplaced tok (scan_exact parser rest)
        | Some a =>
            match action a with
            | StoreTrue => select (dest a) (VBool true) (scan_exact parser rest)
            | Store =>
                match rest with
                | v :: rest' =>
                    match convert a v with
                    | Some x => select (dest a) x (scan_exact parser rest')
                    | None => usage_error
                    end
                | [] => usage_error
                end
            end
        end
  end.

(** A POSIX machine with [which] for its PATH and [run] for its commands. *)
Definition machine (which : string -> option string)
    (run : list string -> node -> CompletedProcess * node) : OS :=
  mkOS which posix_resolve installed_at run posix_fnmatch scan_exact.

(** A machine with ffmpeg and colmap on PATH whose commands do nothing. *)
Definition idle : OS := machine on_path (fun _ fs => (ok, fs)).

(** A machine with nothing on PATH. *)
Definition bare : OS := machine (fun _ => None) (fun _ fs => (ok, fs)).


(** A machine whose ffmpeg writes exactly one frame, [frame_00001.png]. *)
Definition ffmpeg_one_frame : OS :=
  machine on_path
    (fun _ fs =>
       (ok, put ["data"; "job"; "images"; "frame_00001.png"] (File "new") fs)).

(** A machine whose ffmpeg clears [/data/job/images] and reports success. *)
Definition ffmpeg_clears : OS :=
  machine on_path (fun _ fs => (ok, put ["data"; "job"; "images"] (Dir []) fs)).

(** A machine whose colmap fails in subcommand [failing]; its mapper writes
    a binary model into [/data/job/sparse/0]. *)
Definition colmap_machine (failing : string) : OS :=
  machine on_path
    (fun cmd fs =>
       if subcommand cmd =? failing then (failed 1, fs)
       else if subcommand cmd =? "mapper" then
         (ok, put ["data"; "job"; "sparse"; "0"; "cameras.bin"] (File "bin") fs)
       else (ok, fs)).

Definition fs_video : node := put ["data"; "v.mp4"] (File "mp4") (Dir []).

(** [/data/job/images] holding one frame of an earlier run. *)
Definition fs_frames : node :=
  put ["data"; "job"; "images"; "frame_00001.png"] (File "old") fs_video.

(** [/data/job/images] holding three frames of an earlier run. *)
Definition fs_stale : node :=
  put ["data"; "job"; "images"; "frame_00003.png"] (File "old")
    (put ["data"; "job"; "images"; "frame_00002.png"] (File "old") fs_frames).

Definition argv_extract : list string :=
  ["--video"; "/data/v.mp4"; "--out"; "/data/job"].
Definition argv_overwrite : list string :=
  ["--video"; "/data/v.mp4"; "--out"; "/data/job"; "--overwrite"].
Definition argv_colmap : list string :=
  ["--images"; "/data/job/images"; "--out"; "/data/job"].
Definition argv_exhaustive : list string :=
  ["--images"; "/data/job/images"; "--out"; "/data/job"; "--matcher"; "exhaustive"].

(** [fs_frames] with an empty [/data/job/sparse]. *)
Definition fs_sparse : node := put ["data"; "job"; "sparse"] (Dir []) fs_frames.

(** A tree with the bundled [tools/colmap/bin/colmap] next to the scripts. *)
Definition fs_bundled : node :=
  put ["opt"; "litegs"; "tools"; "colmap"; "bin"; "colmap"] (File "elf") fs_frames.
End Demo.

(** * Vocabulary of the properties *)

(** No subprocess was started. *)
Definition no_run (t : list event) : bool :=
  forallb (fun e => negb (is_run e)) t.

(** Neither a directory creation nor a subprocess happened. *)
Definition no_mutation (t : list event) : bool :=
  forallb (fun e => negb (is_mkdir e || is_run e)) t.

(** The stages whose failure ends the run: feature extraction, feature
    matching (either strategy) and mapping. *)
Definition fatal_stage (cmd : list string) : bool :=
  existsb (String.eqb (subcommand cmd))
    ["feature_extractor"; "sequential_matcher"; "exhaustive_matcher"; "mapper"].

(** Only existence tests and PATH lookups happened. *)
Definition only_reads (t : list event) : bool :=
  forallb (fun e => match e with
                    | EvExists _ _ | EvWhich _ _ => true
                    | _ => false
                    end) t.


Definition is_traceback (e : event) : bool :=
  match e with
  | EvTraceback _ => true
  | _ => false
  end.

(** [Q pre e post] holds for every way of cutting the trace [t], read after
    the events [acc], as [pre ++ e :: post]. *)
Fixpoint all_cuts (Q : list event -> event -> list event -> Prop)
    (acc t : list event) : Prop :=
  match t with
  | [] => True
  | e :: t' => Q acc e t' /\ all_cuts Q (acc ++ [e])%list t'
  end.

(** [Q] read at subprocess events only. *)
Definition on_run
    (P : list event -> list string -> node -> CompletedProcess -> node -> list event -> Prop)
    (pre : list event) (e : event) (post : list event) : Prop :=
  match e with
  | EvRun cmd before proc after => P pre cmd before proc after post
  | _ => True
  end.


(** The subprocesses of a trace, in order: command line, tree before,
    completed process, tree after. *)
Definition runs (t : list event)
    : list (list string * node * CompletedProcess * node) :=
  flat_map (fun e => match e with
                     | EvRun cmd before proc after => [(cmd, before, proc, after)]
                     | _ => []
                     end) t.

(** Each subprocess starts from the tree the one before it left, and [final]
    is the tree the last one left. *)
Fixpoint linked (rs : list (list string * node * CompletedProcess * node))
    (final : node) : Prop :=
  match rs with
  | [] => True
  | (_, _, _, after) :: rs' =>
      match rs' with
      | [] => final = after
      | (_, before', _, _) :: _ => after = before' /\ linked rs' final
      end
  end.

(** * Properties *)

(** ** The model on small inputs *)

Example exit_status_of_signal : (exit_status (-9), exit_status 69, exit_status 256) = (247, 69, 0)%Z.
Proof. reflexivity. Qed.

Example returncode_of_wait_codes :
  (returncode (Demo.failed 69), returncode (Demo.failed (-9)), returncode (Demo.failed 256))
  = (69, -9, 0)%Z.
Proof. reflexivity. Qed.

Example posix_fnmatch_frames :
  map (Demo.posix_fnmatch "frame_*.png")
    ["frame_00001.png"; "frame_.png"; "cover.png"; "frame_00001.jpg"; "FRAME_1.PNG"]
  = [true; true; false; false; false].
Proof. reflexivity. Qed.

Example initial_namespaces :
  initial_namespace prepare_video.parser
  = [("video", VNone); ("out", VNone); ("fps", VInt 10); ("overwrite", VBool false)]
  /\ initial_namespace run_colmap.parser
     = [("images", VNone); ("out", VNone); ("matcher", VStr "sequential");
        ("single_camera", VBool false); ("threads", VInt 8)].
Proof. split; reflexivity. Qed.

Example parents_of_script :
  parents ["opt"; "litegs"; "scripts"; "run_colmap.py"] 1 = Some ["opt"; "litegs"].
Proof. reflexivity. Qed.

Example parents_too_few : parents ["run_colmap.py"] 1 = None.
Proof. reflexivity. Qed.

Example mkdir_parents :
  mkdir_tree true true ["data"; "job"; "images"] (Dir [])
  = inr (Dir [("data", Dir [("job", Dir [("images", Dir [])])])]).
Proof. reflexivity. Qed.

Example mkdir_no_parents : mkdir_tree false true ["data"; "job"] (Dir []) = inl ENOENT.
Proof. reflexivity. Qed.

Example mkdir_over_file :
  mkdir_tree true true ["data"; "v.mp4"] Demo.fs_video = inl EEXIST.
Proof. reflexivity. Qed.

Example mkdir_below_file :
  mkdir_tree true true ["data"; "v.mp4"; "images"] Demo.fs_video = inl ENOTDIR.
Proof. reflexivity. Qed.

Example extractor_defaults :
  prepare_video.parse_args Demo.idle Demo.argv_extract
  = inr (prepare_video.mkArgs "/data/v.mp4" "/data/job" 10 false).
Proof. reflexivity. Qed.

Example extractor_missing_out :
  prepare_video.parse_args Demo.idle ["--video"; "/data/v.mp4"] = inl (SystemExit 2).
Proof. reflexivity. Qed.

Example runner_defaults :
  run_colmap.parse_args Demo.idle Demo.argv_colmap
  = inr (run_colmap.mkArgs "/data/job/images" "/data/job" "sequential" false 8).
Proof. reflexivity. Qed.

Example runner_all_flags :
  run_colmap.parse_args Demo.idle
    ["--images"; "/i"; "--out"; "/o"; "--matcher"; "exhaustive"; "--single_camera";
     "--threads"; "4"]
  = inr (run_colmap.mkArgs "/i" "/o" "exhaustive" true 4).
Proof. reflexivity. Qed.

Example runner_bad_matcher :
  run_colmap.parse_args Demo.idle ["--images"; "/i"; "--out"; "/o"; "--matcher"; "fast"]
  = inl (SystemExit 2).
Proof. reflexivity. Qed.

Example runner_help : run_colmap.parse_args Demo.idle ["--frob"; "--help"] = inl (SystemExit 0).
Proof. reflexivity. Qed.

Example extractor_first_run :
  let r := prepare_video.run Demo.ffmpeg_one_frame Demo.argv_extract Demo.fs_video in
  exit_code r = 0%Z
  /\ glob_names Demo.ffmpeg_one_frame ["data"; "job"; "images"] "frame_*.png" (final_fs r) = ["frame_00001.png"]
  /\ last (trace r) (EvPrint "") = EvPrint "完成，生成帧数: 1，输出目录: /data/job/images".
Proof. vm_compute. auto. Qed.

Example runner_full_run :
  let r := run_colmap.run (Demo.colmap_machine "") Demo.argv_colmap Demo.fs_frames in
  exit_code r = 0%Z
  /\ map subcommand
       (flat_map (fun e => match e with EvRun cmd _ _ _ => [cmd] | _ => [] end) (trace r))
     = ["feature_extractor"; "sequential_matcher"; "mapper"; "model_converter"]
  /\ path_exists ["data"; "job"; "sparse"; "0"; "cameras.bin"] (final_fs r) = true.
Proof. vm_compute. auto. Qed.


(** ** The file tree *)

Lemma replace_same {A} (k : string) (v : A) (es : list (string * A)) :
  assoc k es = Some v -> replace k v es = es.
Proof.
  induction es as [|[k' v'] es IH]; simpl; intros H; [reflexivity|].
  destruct (k =? k') eqn:E.
  - injection H as ->. reflexivity.
  - rewrite IH by assumption. reflexivity.
Qed.

Lemma assoc_replace {A} (k : string) (v : A) (es : list (string * A)) :
  assoc k es <> None -> assoc k (replace k v es) = Some v.
Proof.
  induction es as [|[k' v'] es IH]; simpl; intros H; [congruence|].
  destruct (k =? k') eqn:E; simpl; rewrite E; auto.
Qed.

Lemma assoc_app_new {A} (k : string) (v : A) (es : list (string * A)) :
  assoc k es = None -> assoc k (es ++ [(k, v)])%list = Some v.
Proof.
  induction es as [|[k' v'] es IH]; simpl; intros H.
  - rewrite String.eqb_refl. reflexivity.
  - destruct (k =? k'); [discriminate | auto].
Qed.

Lemma assoc_replace_other {A} (k k' : string) (v : A) (es : list (string * A)) :
  (k' =? k) = false -> assoc k' (replace k v es) = assoc k' es.
Proof.
  intros Hne. induction es as [|[k0 v0] es IH]; simpl; [reflexivity|].
  destruct (k =? k0) eqn:E; simpl.
  - apply String.eqb_eq in E. subst k0. rewrite Hne. reflexivity.
  - rewrite IH. reflexivity.
Qed.

Lemma assoc_app_old {A} (k : string) (es es' : list (string * A)) (v : A) :
  assoc k es = Some v -> assoc k (es ++ es')%list = Some v.
Proof.
  induction es as [|[k0 v0] es IH]; simpl; [discriminate|].
  destruct (k =? k0); auto.
Qed.

(** ** The namespace *)

Lemma assoc_setattr_other (k k' : string) (v : value) (ns : list (string * value)) :
  (k' =? k) = false -> assoc k' (setattr k v ns) = assoc k' ns.
Proof.
  intros Hne. unfold setattr.
  destruct (assoc k ns) eqn:E.
  - apply assoc_replace_other. exact Hne.
  - induction ns as [|[k0 v0] ns IH]; simpl.
    + rewrite Hne. reflexivity.
    + simpl in E. destruct (k =? k0); [discriminate|].
      destruct (k' =? k0); [reflexivity|]. apply IH. exact E.
Qed.

(** An attribute no selected option stores into keeps the value it had. *)
Lemma store_selected_other (k : string) (sel : list (string * value)) :
  forall ns, ~ In k (map fst sel) -> assoc k (store_selected sel ns) = assoc k ns.
Proof.
  unfold store_selected.
  induction sel as [|[d v] sel IH]; simpl; intros ns Hno; [reflexivity|].
  rewrite IH by tauto.
  apply assoc_setattr_other.
  apply String.eqb_neq. intros ->. apply Hno. left. reflexivity.
Qed.

(** Creating a directory that is already there changes nothing. *)
Lemma mkdir_tree_existing (pr : bool) (p : path) :
  forall fs, is_dir p fs = true -> mkdir_tree pr true p fs = inr fs.
Proof.
  unfold is_dir.
  induction p as [|c p IH]; intros [content|es]; simpl; try discriminate; auto.
  destruct (assoc c es) as [ch|] eqn:E; [|discriminate].
  intros H.
  assert (Hch : mkdir_tree pr true p ch = inr ch) by (apply IH; exact H).
  destruct p as [|c' p'].
  - destruct ch; [discriminate|].
    simpl. rewrite replace_same by assumption. reflexivity.
  - rewrite Hch, replace_same by assumption.
    destruct ch; reflexivity.
Qed.

(** A directory some name is listed in is a directory. *)
Lemma glob_names_is_dir (os : OS) (dir : path) (pat : string) (fs : node) :
  glob_names os dir pat fs <> [] -> is_dir dir fs = true.
Proof.
  unfold glob_names, is_dir.
  destruct (lookup dir fs) as [[?|?]|]; congruence.
Qed.

Lemma mkdir_tree_cons (pr ok : bool) (c : string) (p : path) (es : list (string * node)) :
  mkdir_tree pr ok (c :: p) (Dir es) =
  match assoc c es with
  | Some ch =>
      match p, ch with
      | [], File _ => inl EEXIST
      | _, _ =>
          match mkdir_tree pr ok p ch with
          | inr ch' => inr (Dir (replace c ch' es))
          | inl e => inl e
          end
      end
  | None =>
      match p with
      | [] => inr (Dir (es ++ [(c, Dir [])])%list)
      | _ :: _ =>
          if pr then
            match mkdir_tree pr ok p (Dir []) with
            | inr ch' => inr (Dir (es ++ [(c, ch')])%list)
            | inl e => inl e
            end
          else inl ENOENT
      end
  end.
Proof. reflexivity. Qed.

(** After a successful [mkdir] the path is a directory. *)
Lemma mkdir_tree_is_dir (pr ok : bool) (p : path) :
  forall fs fs', mkdir_tree pr ok p fs = inr fs' -> is_dir p fs' = true.
Proof.
  unfold is_dir.
  induction p as [|c p IH]; intros [content|es] fs'; try discriminate.
  - simpl. destruct ok; [|discriminate]. intros [= <-]. reflexivity.
  - rewrite mkdir_tree_cons.
    destruct (assoc c es) as [ch|] eqn:E.
    + intros H.
      assert (H' : exists ch', mkdir_tree pr ok p ch = inr ch'
                               /\ fs' = Dir (replace c ch' es)).
      { clear IH.
        destruct (mkdir_tree pr ok p ch) as [e|ch'] eqn:E'.
        - destruct p; [destruct ch|]; discriminate.
        - exists ch'. split; [reflexivity|].
          destruct p; [destruct ch; [discriminate|]|]; congruence. }
      destruct H' as (ch' & Hch & ->). simpl.
      rewrite assoc_replace by congruence. eapply IH; eassumption.
    + assert (Hnew : forall ch', lookup (c :: p) (Dir (es ++ [(c, ch')])%list) = lookup p ch').
      { intros ch'. simpl. rewrite assoc_app_new by assumption. reflexivity. }
      destruct p as [|c' p'].
      * intros [= <-]. rewrite Hnew. reflexivity.
      * destruct pr; [|discriminate].
        destruct (mkdir_tree true ok (c' :: p') (Dir [])) as [e|ch'] eqn:E';
          [discriminate|].
        intros [= <-]. rewrite Hnew. eapply IH; eassumption.
Qed.


(** ** Lists *)

Lemma sorted_nonempty (l : list string) : nonempty (sorted l) = nonempty l.
Proof.
  destruct l as [|x l]; [reflexivity|]. simpl.
  destruct (sorted l) as [|y l']; simpl; [reflexivity|].
  destruct (x <=? y); reflexivity.
Qed.

(** ** Exit statuses *)

Lemma returncode_range (proc : CompletedProcess) : (-256 < returncode proc < 256)%Z.
Proof.
  unfold returncode.
  pose proof (Z.rem_bound_abs (wait_code proc) 256 ltac:(lia)). lia.
Qed.


(** A failed child never looks like a success to the caller's parent. *)
Lemma exit_status_returncode (proc : CompletedProcess) :
  returncode proc <> 0%Z -> exit_status (returncode proc) <> 0%Z.
Proof.
  intros Hrc H. pose proof (returncode_range proc) as R.
  unfold exit_status in H.
  pose proof (Z.div_mod (returncode proc) 256 ltac:(lia)). lia.
Qed.


Lemma nonempty_true {A} (l : list A) : l <> [] -> nonempty l = true.
Proof. destruct l; [congruence | reflexivity]. Qed.

Lemma nonempty_keeps {A} (l l' : list A) :
  l <> [] -> (forall x, In x l -> In x l') -> l' <> [].
Proof.
  destruct l as [|x l]; [congruence|].
  intros _ H ->. apply (H x). left. reflexivity.
Qed.

(** * The Frame Extractor *)
Module PrepareVideoFacts.
Import prepare_video.

Local Arguments String.append : simpl never.
Local Arguments str_path : simpl never.
Local Arguments str_int : simpl never.
Local Arguments str_nat : simpl never.
Local Arguments join_cmd : simpl never.
Local Arguments sorted : simpl never.
Local Arguments returncode : simpl never.
Local Arguments exit_status : simpl never.

Ltac run_script :=
  unfold run, main, extract, ensure_ffmpeg, bind, lift, ret, raise, shutil_which,
    exists_, mkdir, glob, print, print_err, when_text, emit, subprocess_run, sys_exit,
    exit_code, final_fs, trace, no_run, no_mutation.

(** C4: without [--overwrite], when a file matching [frame_*.png] is already
    in [<out>/images], the program exits with status 1, no subprocess is
    ever started, and the file tree is left exactly as it was. *)
Theorem guard_aborts_before_extraction os argv args fs :
  parse_args os argv = inr args ->
  overwrite args = false ->
  glob_names os (images_dir os args) "frame_*.png" fs <> [] ->
  exit_code (run os argv fs) = 1%Z
  /\ no_run (trace (run os argv fs)) = true
  /\ final_fs (run os argv fs) = fs.
Proof.
  intros Hparse Hov Hglob.
  run_script. rewrite Hparse, Hov.
  destruct (which os "ffmpeg") as [f|]; [destruct (f =? "")|]; simpl; auto.
  destruct (path_exists (video_path os args) fs); simpl; auto.
  rewrite (mkdir_tree_existing _ _ _ (glob_names_is_dir _ _ _ _ Hglob)). simpl.
  rewrite (nonempty_true _ Hglob). simpl. auto.
Qed.

Lemma guard_aborts_before_extraction_witness :
  exit_code (run Demo.idle Demo.argv_extract Demo.fs_frames) = 1%Z
  /\ no_run (trace (run Demo.idle Demo.argv_extract Demo.fs_frames)) = true
  /\ final_fs (run Demo.idle Demo.argv_extract Demo.fs_frames) = Demo.fs_frames.
Proof.
  apply (guard_aborts_before_extraction Demo.idle Demo.argv_extract
           (mkArgs "/data/v.mp4" "/data/job" 10 false) Demo.fs_frames).
  - reflexivity.
  - reflexivity.
  - vm_compute. discriminate.
Defined.



(** C9, as stated, fails: the extraction tool is free to remove what it finds
    in [<out>/images].  With [--overwrite] and a frame already there, a tool
    that clears the directory and ends with return code 0 leaves an empty
    listing, and the run takes the "no frames generated" branch and exits
    with status 1. *)
Lemma overwrite_can_report_no_frames :
  ~ (forall os argv args fs ffmpeg proc fs2,
        parse_args os argv = inr args ->
        overwrite args = true ->
        which os "ffmpeg" = Some ffmpeg -> ffmpeg <> "" ->
        path_exists (video_path os args) fs = true ->
        glob_names os (images_dir os args) "frame_*.png" fs <> [] ->
        spawn os (extract_cmd os ffmpeg args) fs = (proc, fs2) ->
        returncode proc = 0%Z ->
        exit_code (run os argv fs) = 0%Z).
Proof.
  intros H.
  specialize (H Demo.ffmpeg_clears Demo.argv_overwrite
                (mkArgs "/data/v.mp4" "/data/job" 10 true) Demo.fs_frames
                "/usr/bin/ffmpeg" Demo.ok
                (Demo.put ["data"; "job"; "images"] (Dir []) Demo.fs_frames)
                eq_refl eq_refl eq_refl ltac:(discriminate) eq_refl
                ltac:(vm_compute; discriminate) eq_refl eq_refl).
  vm_compute in H. discriminate H.
Qed.

(** C9, amended: with [--overwrite], when the executable is found, the input
    video exists, a file matching [frame_*.png] is in [<out>/images] before
    the extraction subprocess runs, and the subprocess removes none of the
    files matching the pattern, the listing taken after the run is not empty
    even if the subprocess wrote nothing, so a return code of 0 always gives
    exit status 0 and the "no frames generated" message is never printed. *)
Theorem overwrite_never_reports_no_frames os argv args fs ffmpeg proc fs2 :
  parse_args os argv = inr args ->
  overwrite args = true ->
  which os "ffmpeg" = Some ffmpeg -> ffmpeg <> "" ->
  path_exists (video_path os args) fs = true ->
  glob_names os (images_dir os args) "frame_*.png" fs <> [] ->
  spawn os (extract_cmd os ffmpeg args) fs = (proc, fs2) ->
  (forall name, In name (glob_names os (images_dir os args) "frame_*.png" fs) ->
                In name (glob_names os (images_dir os args) "frame_*.png" fs2)) ->
  glob_names os (images_dir os args) "frame_*.png" fs2 <> []
  /\ (returncode proc = 0%Z ->
      exit_code (run os argv fs) = 0%Z
      /\ In (EvGlob (images_dir os args) "frame_*.png"
               (glob_names os (images_dir os args) "frame_*.png" fs2))
            (trace (run os argv fs))
      /\ ~ In (EvPrintErr "未生成任何帧，请检查输入视频/参数。") (trace (run os argv fs))).
Proof.
  intros Hparse Hov Hwhich Hne Hvid Hglob Hspawn Hkeep.
  assert (Hpost := nonempty_keeps _ _ Hglob Hkeep).
  apply String.eqb_neq in Hne.
  split; [assumption|].
  intros Hrc.
  run_script. rewrite Hparse, Hwhich, Hne, Hvid. simpl.
  rewrite (mkdir_tree_existing _ _ _ (glob_names_is_dir _ _ _ _ Hglob)). simpl.
  rewrite Hov. simpl. rewrite Hspawn. simpl. rewrite Hrc. simpl.
  rewrite sorted_nonempty, (nonempty_true _ Hpost). simpl.
  split; [reflexivity|]. split; [auto 10|].
  intros H. repeat (destruct H as [H|H]; [discriminate H|]). exact H.
Qed.

Lemma overwrite_never_reports_no_frames_witness :
  exit_code (run Demo.idle Demo.argv_overwrite Demo.fs_frames) = 0%Z.
Proof.
  refine (proj1 (proj2 (overwrite_never_reports_no_frames Demo.idle Demo.argv_overwrite
           (mkArgs "/data/v.mp4" "/data/job" 10 true) Demo.fs_frames
           "/usr/bin/ffmpeg" Demo.ok Demo.fs_frames _ _ _ _ _ _ _ _) _)).
  - reflexivity.
  - reflexivity.
  - reflexivity.
  - discriminate.
  - reflexivity.
  - vm_compute. discriminate.
  - reflexivity.
  - intros name H. exact H.
  - reflexivity.
Defined.





(** C5: a run with [--overwrite] over three frames of an earlier run, in
    which the tool writes one frame: the run succeeds and reports three
    frames, two of which are the earlier run's, still in place. *)
Theorem overwrite_count_includes_stale_frames :
  let r := run Demo.ffmpeg_one_frame Demo.argv_overwrite Demo.fs_stale in
  exit_code r = 0%Z
  /\ In (EvPrint "完成，生成帧数: 3，输出目录: /data/job/images") (trace r)
  /\ lookup ["data"; "job"; "images"; "frame_00001.png"] (final_fs r) = Some (File "new")
  /\ lookup ["data"; "job"; "images"; "frame_00002.png"] (final_fs r) = Some (File "old")
  /\ lookup ["data"; "job"; "images"; "frame_00003.png"] (final_fs r) = Some (File "old").
Proof.
  vm_compute. repeat split; auto 10.
Qed.
End PrepareVideoFacts.

(** ** Cutting a trace at an event *)

Lemma all_cuts_sound (Q : list event -> event -> list event -> Prop) :
  forall pre acc t,
    all_cuts Q acc t ->
    forall e post, t = (pre ++ e :: post)%list -> Q (acc ++ pre)%list e post.
Proof.
  induction pre as [|x pre IH]; intros acc t H e post ->; simpl in H.
  - rewrite app_nil_r. apply H.
  - destruct H as [_ H]. specialize (IH _ _ H e post eq_refl).
    rewrite <- app_assoc in IH. exact IH.
Qed.

Lemma all_cuts_app (Q : list event -> event -> list event -> Prop) (t2 : list event) :
  forall t1 acc,
    all_cuts (fun pre e post => Q pre e (post ++ t2)%list) acc t1 ->
    all_cuts Q (acc ++ t1)%list t2 ->
    all_cuts Q acc (t1 ++ t2)%list.
Proof.
  induction t1 as [|x t1 IH]; simpl; intros acc H1 H2.
  - rewrite app_nil_r in H2. exact H2.
  - split; [apply H1|]. apply IH; [apply H1|].
    rewrite <- app_assoc. exact H2.
Qed.

Lemma all_cuts_no_run P (t : list event) :
  no_run t = true -> forall acc, all_cuts (on_run P) acc t.
Proof.
  induction t as [|x t IH]; simpl; intros Ht acc; [exact I|].
  apply andb_true_iff in Ht as [Hx Ht].
  split; [|apply IH; exact Ht].
  destruct x; try exact I. discriminate Hx.
Qed.

Lemma all_cuts_no_run_then P (t t2 : list event) :
  no_run t = true ->
  forall acc, all_cuts (fun pre e post => on_run P pre e (post ++ t2)%list) acc t.
Proof.
  induction t as [|x t IH]; simpl; intros Ht acc; [exact I|].
  apply andb_true_iff in Ht as [Hx Ht].
  split; [|apply IH; exact Ht].
  destruct x; try exact I. discriminate Hx.
Qed.

Lemma only_reads_no_run (t : list event) : only_reads t = true -> no_run t = true.
Proof.
  unfold only_reads, no_run. intros H.
  apply forallb_forall. intros e He.
  apply (proj1 (forallb_forall _ _) H) in He. destruct e; try discriminate; reflexivity.
Qed.

(** * The Reconstruction Runner *)
Module RunColmapFacts.
Import run_colmap.

Local Arguments String.append : simpl never.
Local Arguments str_path : simpl never.
Local Arguments str_int : simpl never.
Local Arguments join_cmd : simpl never.
Local Arguments returncode : simpl never.
Local Arguments exit_status : simpl never.

(** C3: [ensure_colmap] tests [tools/colmap/COLMAP.bat], then
    [tools/colmap/bin/colmap.exe], then [tools/colmap/bin/colmap], in this
    order, and returns the first that exists; when none exists it returns
    what the PATH lookup of [colmap] finds, and raises [FileNotFoundError]
    when that finds nothing. *)
Theorem ensure_colmap_order os here fs :
  parents (script_file os) 1 = Some here ->
  let bat := here // "tools" // "colmap" // "COLMAP.bat" in
  let exe := here // "tools" // "colmap" // "bin" // "colmap.exe" in
  let bin := here // "tools" // "colmap" // "bin" // "colmap" in
  (path_exists bat fs = true ->
   ensure_colmap os fs = (inr (str_path bat), fs, [EvExists bat true]))
  /\ (path_exists bat fs = false -> path_exists exe fs = true ->
      ensure_colmap os fs
      = (inr (str_path exe), fs, [EvExists bat false; EvExists exe true]))
  /\ (path_exists bat fs = false -> path_exists exe fs = false ->
      path_exists bin fs = true ->
      ensure_colmap os fs
      = (inr (str_path bin), fs,
         [EvExists bat false; EvExists exe false; EvExists bin true]))
  /\ (path_exists bat fs = false -> path_exists exe fs = false ->
      path_exists bin fs = false ->
      forall c, which os "colmap" = Some c -> c <> "" ->
      ensure_colmap os fs
      = (inr c, fs,
         [EvExists bat false; EvExists exe false; EvExists bin false;
          EvWhich "colmap" (Some c)]))
  /\ (path_exists bat fs = false -> path_exists exe fs = false ->
      path_exists bin fs = false ->
      truthy (which os "colmap") = false ->
      ensure_colmap os fs
      = (inl (FileNotFoundError "colmap not found (checked tools/colmap and PATH)"), fs,
         [EvExists bat false; EvExists exe false; EvExists bin false;
          EvWhich "colmap" (which os "colmap")])).
Proof.
  intros Hhere bat exe bin.
  unfold ensure_colmap, bind, lift. rewrite Hhere.
  unfold candidates, first_existing, bind, exists_, ret, raise, shutil_which.
  fold bat exe bin. simpl.
  repeat split.
  - intros ->. reflexivity.
  - intros -> ->. reflexivity.
  - intros -> -> ->. reflexivity.
  - intros -> -> -> c -> Hc. apply String.eqb_neq in Hc. simpl. rewrite Hc. reflexivity.
  - intros -> -> -> Hw. simpl.
    destruct (which os "colmap") as [c|]; simpl in *; [|reflexivity].
    destruct (c =? ""); [reflexivity | discriminate].
Qed.

Lemma ensure_colmap_order_witness :
  ensure_colmap Demo.idle Demo.fs_bundled
  = (inr "/opt/litegs/tools/colmap/bin/colmap", Demo.fs_bundled,
     [EvExists ["opt"; "litegs"; "tools"; "colmap"; "COLMAP.bat"] false;
      EvExists ["opt"; "litegs"; "tools"; "colmap"; "bin"; "colmap.exe"] false;
      EvExists ["opt"; "litegs"; "tools"; "colmap"; "bin"; "colmap"] true]).
Proof.
  apply (proj1 (proj2 (proj2 (ensure_colmap_order Demo.idle ["opt"; "litegs"]
                                Demo.fs_bundled eq_refl))));
    reflexivity.
Defined.

(** [ensure_colmap] only looks: it leaves the tree as it is, and its events
    are existence tests and a PATH lookup. *)
Lemma ensure_colmap_reads os fs :
  exists r t, ensure_colmap os fs = (r, fs, t) /\ only_reads t = true.
Proof.
  unfold ensure_colmap, bind, lift, ret, raise.
  destruct (parents (script_file os) 1) as [here|]; simpl; [|eauto].
  unfold candidates, first_existing, bind, exists_, ret, raise, shutil_which.
  repeat match goal with
         | |- context [path_exists ?p fs] => destruct (path_exists p fs); simpl; eauto
         end.
  destruct (which os "colmap") as [c|]; [destruct (c =? "")|]; simpl; eauto.
Qed.

(** *** Walking through every run of [main] *)

Ltac in_trace :=
  match goal with
  | |- In _ (_ ++ _)%list => apply in_or_app; ((left; in_trace) || (right; in_trace))
  | |- In _ (_ :: _) => (left; reflexivity) || (right; in_trace)
  end.

Ltac run_step :=
  match goal with
  | |- context [path_exists ?p ?f] => destruct (path_exists p f) eqn:?
  | |- context [mkdir_tree ?a ?b ?p ?f] => destruct (mkdir_tree a b p f) eqn:?
  | |- context [spawn ?o ?c ?f] => destruct (spawn o c f) as [? ?] eqn:?
  | |- context [(returncode ?p =? 0)%Z] => destruct (returncode p =? 0)%Z eqn:?
  | |- context [stdout ?p =? ""] => destruct (stdout p =? "") eqn:?
  | |- context [stderr ?p =? ""] => destruct (stderr p =? "") eqn:?
  | |- context [match ?e with SystemExit _ => _ | _ => _ end] => destruct e
  | |- context [matcher ?a =? "sequential"] => destruct (matcher a =? "sequential") eqn:?
  end; simpl.

(** The cases of a run whose arguments parsed: [leaf] closes the goal for
    the events after those of [ensure_colmap]. *)
Ltac after_ensure os fs leaf :=
  let r := fresh "r" in
  let t := fresh "t" in
  let Ht := fresh "Ht" in
  destruct (ensure_colmap_reads os fs) as (r & t & -> & Ht);
  apply only_reads_no_run in Ht;
  destruct r as [?|?]; simpl;
  unfold run_cmd, match_cmd, bind, print, print_err, emit, subprocess_run, when_text,
    ret, raise, try_except;
  simpl;
  repeat run_step;
  rewrite <- ?app_assoc; simpl;
  first [ apply all_cuts_no_run; exact Ht
        | apply all_cuts_app; [apply all_cuts_no_run_then; exact Ht|]; simpl; leaf ].

Ltac all_runs os argv fs leaf :=
  unfold run, main, bind, lift, ret, raise, exists_, mkdir, print, print_err, emit,
    sys_exit, exit_code, final_fs, trace;
  destruct (parse_args os argv) as [[]|?]; simpl; try (repeat split; exact I);
  after_ensure os fs leaf.

Ltac stops_leaf :=
  repeat match goal with
         | |- _ /\ _ => split
         | |- True => exact I
         | |- fatal_stage _ = true -> _ =>
             let Hst := fresh "Hst" in
             let Hrc := fresh "Hrc" in
             intros Hst Hrc;
             try discriminate Hst;
             try (exfalso; apply Hrc; apply Z.eqb_eq; assumption);
             try (split; [reflexivity | discriminate])
         end.

Lemma fatal_failure_cuts os argv fs :
  all_cuts
    (on_run (fun _ cmd _ proc _ post =>
               fatal_stage cmd = true -> returncode proc <> 0%Z ->
               no_run post = true /\ exit_code (run os argv fs) <> 0%Z))
    [] (trace (run os argv fs)).
Proof.
  all_runs os argv fs stops_leaf.
Qed.

(** C2: when a feature-extraction, feature-matching or mapping subprocess
    ends with a non-zero status, no subprocess is started after it (a failed
    mapping is never followed by model conversion) and the exit status of
    the run is not 0. *)
Theorem fatal_stage_failure_stops_pipeline os argv fs pre cmd before proc after post :
  trace (run os argv fs) = (pre ++ EvRun cmd before proc after :: post)%list ->
  fatal_stage cmd = true ->
  returncode proc <> 0%Z ->
  no_run post = true /\ exit_code (run os argv fs) <> 0%Z.
Proof.
  intros Hcut.
  exact (all_cuts_sound _ pre [] _ (fatal_failure_cuts os argv fs) _ post Hcut).
Qed.

Ltac absorbed_leaf :=
  repeat match goal with
         | |- _ /\ _ => split
         | |- True => exact I
         | |- subcommand _ = "model_converter" -> _ =>
             let Hsub := fresh "Hsub" in
             let Hrc := fresh "Hrc" in
             intros Hsub Hrc;
             try discriminate Hsub;
             try (exfalso; apply Hrc; apply Z.eqb_eq; assumption)
         | |- _ = _ => reflexivity
         | |- In _ _ => in_trace
         | |- _ \/ _ => first [left; reflexivity | right]
         | |- exists _, _ => eexists
         | |- returncode _ = 0%Z => apply Z.eqb_eq; assumption
         | |- _ = true => assumption
         end.

Lemma converter_failure_cuts os argv fs :
  all_cuts
    (on_run (fun pre cmd before proc after post =>
               subcommand cmd = "model_converter" -> returncode proc <> 0%Z ->
               exit_code (run os argv fs) = 0%Z
               /\ final_fs (run os argv fs) = after
               /\ In (EvPrintErr ("model_converter failed (bin is still usable): "
                                  ++ "Command failed with exit code "
                                  ++ str_int (returncode proc))) post
               /\ forallb (fun e => negb (is_traceback e)) post = true
               /\ (exists mcmd mbefore mproc,
                      In (EvRun mcmd mbefore mproc before) pre
                      /\ subcommand mcmd = "mapper"
                      /\ returncode mproc = 0%Z)
               /\ exists args,
                    parse_args os argv = inr args
                    /\ cmd = converter_cmd os (nth 0 cmd "") args
                    /\ path_exists (model_dir os args) before = true))
    [] (trace (run os argv fs)).
Proof.
  all_runs os argv fs absorbed_leaf.
Qed.

(** C1: when the model-conversion subprocess ends with a non-zero status
    (mapping then has ended with status 0, [<out>/sparse/0] exists, and
    conversion started from the tree mapping left), the failure is caught: a
    warning goes to standard error, no traceback follows, the exit status is
    0, and the tree the run ends with is exactly the one the conversion
    subprocess left, so that the wrapper itself touches nothing in
    [<out>/sparse/0]. *)
Theorem converter_failure_is_absorbed os argv fs pre cmd before proc after post :
  trace (run os argv fs) = (pre ++ EvRun cmd before proc after :: post)%list ->
  subcommand cmd = "model_converter" ->
  returncode proc <> 0%Z ->
  exit_code (run os argv fs) = 0%Z
  /\ final_fs (run os argv fs) = after
  /\ In (EvPrintErr ("model_converter failed (bin is still usable): "
                     ++ "Command failed with exit code "
                     ++ str_int (returncode proc))) post
  /\ forallb (fun e => negb (is_traceback e)) post = true
  /\ (exists mcmd mbefore mproc,
         In (EvRun mcmd mbefore mproc before) pre
         /\ subcommand mcmd = "mapper"
         /\ returncode mproc = 0%Z)
  /\ exists args,
       parse_args os argv = inr args
       /\ cmd = converter_cmd os (nth 0 cmd "") args
       /\ path_exists (model_dir os args) before = true.
Proof.
  intros Hcut.
  exact (all_cuts_sound _ pre [] _ (converter_failure_cuts os argv fs) _ post Hcut).
Qed.

(** *** The command line *)

(** The matcher of an accepted command line that selects no [--matcher] is
    the declared default. *)
Lemma parse_args_matcher_default os argv args s :
  parse_args os argv = inr args ->
  argparse_scan os parser argv = inr s ->
  ~ In "matcher" (map fst (selected s)) ->
  matcher args = "sequential".
Proof.
  unfold parse_args, parse_namespace. intros Hparse Hscan Hno.
  rewrite Hscan in Hparse.
  destruct (missing_required parser (selected s)); [discriminate|].
  destruct (nonempty (extras s)); [discriminate|].
  unfold namespace_of in Hparse.
  rewrite (store_selected_other "matcher" _ _ Hno) in Hparse.
  change (assoc "matcher" (initial_namespace parser)) with (Some (VStr "sequential"))
    in Hparse.
  repeat match type of Hparse with
         | match ?x with _ => _ end = _ => destruct x; try discriminate
         end.
  injection Hparse as <-. reflexivity.
Qed.

Ltac matcher_leaf :=
  repeat match goal with
         | |- _ /\ _ => split
         | |- True => exact I
         | |- subcommand _ = "feature_extractor" -> _ =>
             let Hsub := fresh "Hsub" in
             let Hrc := fresh "Hrc" in
             intros Hsub Hrc;
             try discriminate Hsub;
             try (exfalso; apply Z.eqb_eq in Hrc; congruence)
         | |- exists _, _ => eexists
         | |- _ = _ => reflexivity
         end.

Lemma matcher_cuts os argv args fs :
  parse_args os argv = inr args ->
  all_cuts
    (on_run (fun _ cmd _ proc after post =>
               subcommand cmd = "feature_extractor" -> returncode proc = 0%Z ->
               exists mproc mafter rest,
                 post = EvPrint ("Running: " ++ join_cmd (match_cmd os (nth 0 cmd "") args))
                        :: EvRun (match_cmd os (nth 0 cmd "") args) after mproc mafter
                        :: rest))
    [] (trace (run os argv fs)).
Proof.
  intros Hparse.
  unfold run, main, bind, lift, ret, raise, exists_, mkdir, print, print_err, emit,
    sys_exit, exit_code, final_fs, trace.
  rewrite Hparse. simpl.
  after_ensure os fs matcher_leaf.
Qed.

(** A run that gets through feature extraction starts the matching command:
    with the executable [ensure_colmap] returned, on the tree feature
    extraction left, right after logging it. *)
Lemma matcher_started os argv args fs colmap t0 fs1 fs2 p1 fs3 p2 fs4 :
  parse_args os argv = inr args ->
  ensure_colmap os fs = (inr colmap, fs, t0) ->
  path_exists (images_path os args) fs = true ->
  mkdir_tree true true (out_root os args) fs = inr fs1 ->
  mkdir_tree false true (sparse_dir os args) fs1 = inr fs2 ->
  spawn os (feat_cmd os colmap args) fs2 = (p1, fs3) ->
  returncode p1 = 0%Z ->
  spawn os (match_cmd os colmap args) fs3 = (p2, fs4) ->
  exists rest,
    trace (run os argv fs)
    = (t0 ++ [ EvExists (images_path os args) true;
               EvMkdir (out_root os args);
               EvMkdir (sparse_dir os args);
               EvPrint ("Running: " ++ join_cmd (feat_cmd os colmap args));
               EvRun (feat_cmd os colmap args) fs2 p1 fs3;
               EvPrint ("Running: " ++ join_cmd (match_cmd os colmap args));
               EvRun (match_cmd os colmap args) fs3 p2 fs4 ] ++ rest)%list.
Proof.
  intros Hparse Hens Himg Hmk1 Hmk2 Hsp1 Hrc1 Hsp2.
  unfold run, main, bind, lift, ret, raise, exists_, mkdir, print, print_err, emit,
    sys_exit, exit_code, final_fs, trace.
  rewrite Hparse. simpl. rewrite Hens. simpl. rewrite Himg. simpl.
  rewrite Hmk1. simpl. rewrite Hmk2. simpl.
  unfold run_cmd, bind, print, print_err, emit, subprocess_run, when_text,
    ret, raise, try_except.
  rewrite Hsp1. simpl. rewrite Hrc1. simpl. rewrite Hsp2. simpl.
  repeat run_step;
    rewrite <- ?app_assoc; simpl; eexists; reflexivity.
Qed.

(** C8: the matching command is the [sequential_matcher] subcommand when the
    matcher is [sequential] and the [exhaustive_matcher] subcommand when it
    is [exhaustive], each with [--database_path <out>/database.db], the
    database path feature extraction is given.  A run that gets through
    feature extraction starts that command, with the executable
    [ensure_colmap] returned, on the tree feature extraction left; and
    nothing else is ever started right after a feature extraction that ended
    with return code 0.  The matcher of a command line on which argparse
    finds no [--matcher] option is [sequential]. *)
Theorem matcher_stage os argv args :
  parse_args os argv = inr args ->
  (forall s, argparse_scan os parser argv = inr s ->
             ~ In "matcher" (map fst (selected s)) ->
             matcher args = "sequential")
  /\ (forall colmap,
        matcher args = "sequential" ->
        match_cmd os colmap args
        = [colmap; "sequential_matcher"; "--database_path"; str_path (db_path os args)])
  /\ (forall colmap,
        matcher args = "exhaustive" ->
        match_cmd os colmap args
        = [colmap; "exhaustive_matcher"; "--database_path"; str_path (db_path os args)])
  /\ (forall colmap,
        firstn 4 (feat_cmd os colmap args)
        = [colmap; "feature_extractor"; "--database_path"; str_path (db_path os args)])
  /\ (forall fs colmap t0 fs1 fs2 p1 fs3 p2 fs4,
        ensure_colmap os fs = (inr colmap, fs, t0) ->
        path_exists (images_path os args) fs = true ->
        mkdir_tree true true (out_root os args) fs = inr fs1 ->
        mkdir_tree false true (sparse_dir os args) fs1 = inr fs2 ->
        spawn os (feat_cmd os colmap args) fs2 = (p1, fs3) ->
        returncode p1 = 0%Z ->
        spawn os (match_cmd os colmap args) fs3 = (p2, fs4) ->
        exists rest,
          trace (run os argv fs)
          = (t0 ++ [ EvExists (images_path os args) true;
                     EvMkdir (out_root os args);
                     EvMkdir (sparse_dir os args);
                     EvPrint ("Running: " ++ join_cmd (feat_cmd os colmap args));
                     EvRun (feat_cmd os colmap args) fs2 p1 fs3;
                     EvPrint ("Running: " ++ join_cmd (match_cmd os colmap args));
                     EvRun (match_cmd os colmap args) fs3 p2 fs4 ] ++ rest)%list)
  /\ (forall fs pre cmd before proc after post,
        trace (run os argv fs) = (pre ++ EvRun cmd before proc after :: post)%list ->
        subcommand cmd = "feature_extractor" ->
        returncode proc = 0%Z ->
        exists mproc mafter rest,
          post = EvPrint ("Running: " ++ join_cmd (match_cmd os (nth 0 cmd "") args))
                 :: EvRun (match_cmd os (nth 0 cmd "") args) after mproc mafter
                 :: rest).
Proof.
  intros Hparse.
  split; [|split; [|split; [|split; [|split]]]].
  - intros s Hscan Hno. exact (parse_args_matcher_default os argv args s Hparse Hscan Hno).
  - intros colmap H. unfold match_cmd. rewrite H. reflexivity.
  - intros colmap H. unfold match_cmd. rewrite H. reflexivity.
  - intros colmap. reflexivity.
  - intros fs colmap t0 fs1 fs2 p1 fs3 p2 fs4.
    exact (matcher_started os argv args fs colmap t0 fs1 fs2 p1 fs3 p2 fs4 Hparse).
  - intros fs pre cmd before proc after post Hcut.
    exact (all_cuts_sound _ pre [] _ (matcher_cuts os argv args fs Hparse) _ post Hcut).
Qed.

(** *** Runs on concrete machines *)

Lemma matcher_stage_witness :
  (exists rest,
      trace (run Demo.idle Demo.argv_exhaustive Demo.fs_frames)
      = ([ EvExists ["opt"; "litegs"; "tools"; "colmap"; "COLMAP.bat"] false;
           EvExists ["opt"; "litegs"; "tools"; "colmap"; "bin"; "colmap.exe"] false;
           EvExists ["opt"; "litegs"; "tools"; "colmap"; "bin"; "colmap"] false;
           EvWhich "colmap" (Some "/usr/bin/colmap") ]
         ++ [ EvExists ["data"; "job"; "images"] true;
              EvMkdir ["data"; "job"];
              EvMkdir ["data"; "job"; "sparse"];
              EvPrint ("Running: /usr/bin/colmap feature_extractor --database_path "
                       ++ "/data/job/database.db --image_path /data/job/images");
              EvRun ["/usr/bin/colmap"; "feature_extractor"; "--database_path";
                     "/data/job/database.db"; "--image_path"; "/data/job/images"]
                Demo.fs_sparse Demo.ok Demo.fs_sparse;
              EvPrint ("Running: /usr/bin/colmap exhaustive_matcher --database_path "
                       ++ "/data/job/database.db");
              EvRun ["/usr/bin/colmap"; "exhaustive_matcher"; "--database_path";
                     "/data/job/database.db"]
                Demo.fs_sparse Demo.ok Demo.fs_sparse ]
         ++ rest)%list)
  /\ (exists args,
        parse_args Demo.idle Demo.argv_colmap = inr args
        /\ matcher args = "sequential").
Proof.
  split.
  - apply (proj1 (proj2 (proj2 (proj2 (proj2
             (matcher_stage Demo.idle Demo.argv_exhaustive
                (mkArgs "/data/job/images" "/data/job" "exhaustive" false 8) eq_refl)))))
             Demo.fs_frames "/usr/bin/colmap" _ Demo.fs_frames Demo.fs_sparse
             Demo.ok Demo.fs_sparse Demo.ok Demo.fs_sparse);
      reflexivity.
  - exists (mkArgs "/data/job/images" "/data/job" "sequential" false 8).
    split; [reflexivity|].
    apply (proj1 (matcher_stage Demo.idle Demo.argv_colmap
                    (mkArgs "/data/job/images" "/data/job" "sequential" false 8) eq_refl)
             (mkScan [("images", VStr "/data/job/images"); ("out", VStr "/data/job")] [])
             eq_refl).
    simpl. intros [H|[H|[]]]; discriminate H.
Defined.

Lemma fatal_stage_failure_stops_pipeline_witness :
  no_run (skipn 13 (trace (run (Demo.colmap_machine "mapper") Demo.argv_colmap
                             Demo.fs_frames))) = true
  /\ exit_code (run (Demo.colmap_machine "mapper") Demo.argv_colmap Demo.fs_frames) <> 0%Z.
Proof.
  eapply (fatal_stage_failure_stops_pipeline (Demo.colmap_machine "mapper")
            Demo.argv_colmap Demo.fs_frames
            (firstn 12 (trace (run (Demo.colmap_machine "mapper") Demo.argv_colmap
                                 Demo.fs_frames)))).
  - cbv. reflexivity.
  - reflexivity.
  - cbv. discriminate.
Defined.

Lemma converter_failure_is_absorbed_witness :
  exit_code (run (Demo.colmap_machine "model_converter") Demo.argv_colmap Demo.fs_frames)
  = 0%Z.
Proof.
  eapply (converter_failure_is_absorbed (Demo.colmap_machine "model_converter")
            Demo.argv_colmap Demo.fs_frames
            (firstn 15 (trace (run (Demo.colmap_machine "model_converter")
                                 Demo.argv_colmap Demo.fs_frames)))).
  - cbv. reflexivity.
  - reflexivity.
  - cbv. discriminate.
Defined.
End RunColmapFacts.

(** * Both tools: a missing executable *)

(** C7: when the executable cannot be located (ffmpeg is not on PATH; for
    COLMAP, no bundled candidate exists and colmap is not on PATH), the run
    ends in the lookup, before any directory is created and before any
    subprocess is started: the file tree is unchanged, and with arguments
    that parse the run consists of the lookup and the [FileNotFoundError]
    traceback and exits with status 1. *)
Theorem tool_not_found_leaves_tree os fs :
  (forall argv,
      truthy (which os "ffmpeg") = false ->
      final_fs (prepare_video.run os argv fs) = fs
      /\ no_mutation (trace (prepare_video.run os argv fs)) = true
      /\ (forall args,
            prepare_video.parse_args os argv = inr args ->
            exit_code (prepare_video.run os argv fs) = 1%Z
            /\ trace (prepare_video.run os argv fs)
               = [EvWhich "ffmpeg" (which os "ffmpeg");
                  EvTraceback (FileNotFoundError "未找到 ffmpeg，请先安装并加入 PATH。")]))
  /\ (forall argv here,
         parents (script_file os) 1 = Some here ->
         (forall c, In c (run_colmap.candidates here) -> path_exists c fs = false) ->
         truthy (which os "colmap") = false ->
         final_fs (run_colmap.run os argv fs) = fs
         /\ no_mutation (trace (run_colmap.run os argv fs)) = true
         /\ (forall args,
               run_colmap.parse_args os argv = inr args ->
               exit_code (run_colmap.run os argv fs) = 1%Z
               /\ trace (run_colmap.run os argv fs)
                  = (map (fun c => EvExists c false) (run_colmap.candidates here)
                     ++ [EvWhich "colmap" (which os "colmap");
                         EvTraceback
                           (FileNotFoundError
                              "colmap not found (checked tools/colmap and PATH)")])%list)).
Proof.
  split.
  - intros argv Hw.
    unfold prepare_video.run, prepare_video.main, prepare_video.ensure_ffmpeg, bind, lift,
      ret, raise, shutil_which, sys_exit, exit_code, final_fs, trace.
    destruct (prepare_video.parse_args os argv) as [[]|args]; simpl;
      try (repeat split; intros; discriminate).
    destruct (which os "ffmpeg") as [f|]; simpl in *;
      [destruct (f =? ""); [|discriminate]|]; simpl;
      (repeat split; intros a [= <-]; reflexivity).
  - intros argv here Hhere Hnone Hw.
    assert (Hens : run_colmap.ensure_colmap os fs
                   = (inl (FileNotFoundError
                             "colmap not found (checked tools/colmap and PATH)"),
                      fs,
                      (map (fun c => EvExists c false) (run_colmap.candidates here)
                       ++ [EvWhich "colmap" (which os "colmap")])%list)).
    { unfold run_colmap.ensure_colmap, bind, lift. rewrite Hhere.
      unfold run_colmap.candidates in *.
      unfold run_colmap.first_existing, bind, exists_, ret, raise, shutil_which. simpl.
      rewrite !Hnone by (simpl; auto). simpl.
      destruct (which os "colmap") as [c|]; simpl in *; [|reflexivity].
      destruct (c =? ""); [reflexivity | discriminate]. }
    unfold run_colmap.run, run_colmap.main, bind, lift, ret, raise, sys_exit, exit_code,
      final_fs, trace.
    destruct (run_colmap.parse_args os argv) as [[]|args]; simpl;
      try (repeat split; intros; discriminate).
    rewrite Hens. simpl.
    repeat split; intros a [= <-]; reflexivity.
Qed.

Lemma tool_not_found_leaves_tree_witness :
  final_fs (prepare_video.run Demo.bare Demo.argv_extract Demo.fs_video) = Demo.fs_video
  /\ final_fs (run_colmap.run Demo.bare Demo.argv_colmap Demo.fs_frames) = Demo.fs_frames.
Proof.
  split.
  - apply (proj1 (tool_not_found_leaves_tree Demo.bare Demo.fs_video) Demo.argv_extract).
    reflexivity.
  - apply (proj2 (tool_not_found_leaves_tree Demo.bare Demo.fs_frames) Demo.argv_colmap
             ["opt"; "litegs"]).
    + reflexivity.
    + intros c [<-|[<-|[<-|[]]]]; reflexivity.
    + reflexivity.
Defined.

(** ** What [mkdir] keeps *)

(** A successful [mkdir] leaves every file as it was and every directory a
    directory. *)
Lemma mkdir_tree_keeps (pr ok : bool) (p : path) :
  forall fs fs', mkdir_tree pr ok p fs = inr fs' ->
  forall q n, lookup q fs = Some n ->
    match n with
    | File c => lookup q fs' = Some (File c)
    | Dir _ => is_dir q fs' = true
    end.
Proof.
  induction p as [|c p IH]; intros [content|es] fs'; try discriminate.
  - simpl. destruct ok; [|discriminate]. intros [= <-] q n Hq. unfold is_dir.
    rewrite Hq. destruct n; reflexivity.
  - rewrite mkdir_tree_cons. intros Hmk [|c' q] n Hq.
    + simpl in Hq. injection Hq as <-.
      unfold is_dir. simpl.
      destruct (assoc c es) as [ch|]; [|destruct p; [|destruct pr]].
      * destruct (mkdir_tree pr ok p ch); destruct p; try destruct ch; try discriminate;
          injection Hmk as <-; reflexivity.
      * injection Hmk as <-. reflexivity.
      * destruct (mkdir_tree true ok (s :: p) (Dir [])); [discriminate|].
        injection Hmk as <-. reflexivity.
      * discriminate.
    + simpl in Hq. destruct (assoc c' es) as [ch0|] eqn:E0; [|discriminate].
      destruct (c' =? c) eqn:Ecc.
      * apply String.eqb_eq in Ecc. subst c'. rewrite E0 in Hmk.
        assert (H' : exists ch', mkdir_tree pr ok p ch0 = inr ch'
                                 /\ fs' = Dir (replace c ch' es)).
        { destruct (mkdir_tree pr ok p ch0) as [e|ch'] eqn:E'.
          - destruct p; [destruct ch0|]; discriminate.
          - exists ch'. split; [reflexivity|].
            destruct p; [destruct ch0; [discriminate|]|]; congruence. }
        destruct H' as (ch' & Hch & ->).
        specialize (IH _ _ Hch q n Hq).
        unfold is_dir in *. simpl. rewrite assoc_replace by congruence. exact IH.
      * assert (Hsame : exists es', fs' = Dir es' /\ assoc c' es' = Some ch0).
        { destruct (assoc c es) as [ch|] eqn:E.
          - destruct (mkdir_tree pr ok p ch) as [e|ch'] eqn:E'.
            + destruct p; [destruct ch|]; discriminate.
            + exists (replace c ch' es). split.
              * destruct p; [destruct ch; [discriminate|]|]; congruence.
              * rewrite assoc_replace_other by assumption. exact E0.
          - destruct p as [|c'' p'].
            + injection Hmk as <-. eexists. split; [reflexivity|].
              apply assoc_app_old. exact E0.
            + destruct pr; [|discriminate].
              destruct (mkdir_tree true ok (c'' :: p') (Dir [])) as [e|ch'];
                [discriminate|].
              injection Hmk as <-. eexists. split; [reflexivity|].
              apply assoc_app_old. exact E0. }
        destruct Hsame as (es' & -> & Hes').
        unfold is_dir. simpl. rewrite Hes', Hq. destruct n; reflexivity.
Qed.

Lemma mkdir_tree_keeps_paths (pr ok : bool) (p : path) fs fs' q :
  mkdir_tree pr ok p fs = inr fs' -> path_exists q fs = true -> path_exists q fs' = true.
Proof.
  intros Hmk. unfold path_exists.
  destruct (lookup q fs) as [n|] eqn:Hq; [|discriminate].
  intros _. pose proof (mkdir_tree_keeps _ _ _ _ _ Hmk q n Hq) as H.
  destruct n; [rewrite H; reflexivity|].
  unfold is_dir in H. destruct (lookup q fs'); [reflexivity | discriminate].
Qed.


Lemma nonempty_false {A} (l : list A) : nonempty l = false -> l = [].
Proof. destruct l; [reflexivity | discriminate]. Qed.

Lemma sorted_length (l : list string) : length (sorted l) = length l.
Proof.
  assert (Hins : forall x l', length (insert_sorted x l') = S (length l')).
  { intros x l'. induction l' as [|y l' IH]; simpl; [reflexivity|].
    destruct (x <=? y); simpl; [reflexivity | rewrite IH; reflexivity]. }
  induction l as [|x l IH]; simpl; [reflexivity|].
  rewrite Hins, IH. reflexivity.
Qed.

(** * More on the Frame Extractor *)
Module PrepareVideoMore.
Import prepare_video.

Local Arguments String.append : simpl never.
Local Arguments str_path : simpl never.
Local Arguments str_int : simpl never.
Local Arguments str_nat : simpl never.
Local Arguments join_cmd : simpl never.
Local Arguments sorted : simpl never.
Local Arguments glob_names : simpl never.
Local Arguments returncode : simpl never.
Local Arguments exit_status : simpl never.

Ltac extractor_step :=
  match goal with
  | |- context [which ?o "ffmpeg"] => destruct (which o "ffmpeg") eqn:?
  | |- context [path_exists ?p ?f] => destruct (path_exists p f) eqn:?
  | |- context [mkdir_tree ?a ?b ?p ?f] => destruct (mkdir_tree a b p f) eqn:?
  | |- context [overwrite ?a] => destruct (overwrite a) eqn:?
  | |- context [spawn ?o ?c ?f] => destruct (spawn o c f) as [? ?] eqn:?
  | |- context [(returncode ?p =? 0)%Z] => destruct (returncode p =? 0)%Z eqn:?
  | |- context [stdout ?p =? ""] => destruct (stdout p =? "") eqn:?
  | |- context [stderr ?p =? ""] => destruct (stderr p =? "") eqn:?
  | |- context [nonempty ?l] => destruct (nonempty l) eqn:?
  | |- context [?f =? ""] => destruct (f =? "") eqn:?
  | |- context [os_error ?e _] => destruct e
  | |- context [match ?e with SystemExit _ => _ | _ => _ end] => destruct e
  end; simpl.

Ltac extractor_runs argv :=
  unfold run, main, extract, ensure_ffmpeg, bind, lift, ret, raise, shutil_which,
    exists_, mkdir, glob, print, print_err, when_text, emit, subprocess_run, sys_exit,
    exit_code, final_fs, trace;
  destruct (parse_args _ argv) as [[]|?] eqn:?; simpl;
  repeat extractor_step.

Lemma extractor_cuts os argv fs :
  all_cuts
    (on_run (fun pre cmd before proc after post =>
               no_run pre = true /\ no_run post = true
               /\ final_fs (run os argv fs) = after
               /\ exists args ffmpeg,
                    parse_args os argv = inr args
                    /\ which os "ffmpeg" = Some ffmpeg
                    /\ cmd = extract_cmd os ffmpeg args
                    /\ mkdir_tree true true (images_dir os args) fs = inr before
                    /\ path_exists (video_path os args) fs = true
                    /\ (overwrite args = false ->
                        glob_names os (images_dir os args) "frame_*.png" before = [])))
    [] (trace (run os argv fs)).
Proof.
  extractor_runs argv;
    repeat match goal with
           | |- _ /\ _ => split
           | |- True => exact I
           | |- exists _, _ => eexists
           | |- _ = false -> _ => intros ?
           | |- _ = [] => first [apply nonempty_false; assumption | congruence]
           | |- _ = _ => first [reflexivity | eassumption | discriminate]
           end.
Qed.

(** X2: a run of the Frame Extractor starts at most one subprocess; it is the
    extraction command for the ffmpeg found on PATH, and the wrapper changes
    nothing after it returns: the tree the run ends with is the one the
    subprocess left. *)
Theorem extractor_single_subprocess os argv fs pre cmd before proc after post :
  trace (run os argv fs) = (pre ++ EvRun cmd before proc after :: post)%list ->
  no_run pre = true /\ no_run post = true
  /\ final_fs (run os argv fs) = after
  /\ exists args ffmpeg,
       parse_args os argv = inr args
       /\ which os "ffmpeg" = Some ffmpeg
       /\ cmd = extract_cmd os ffmpeg args.
Proof.
  intros Hcut.
  destruct (all_cuts_sound _ pre [] _ (extractor_cuts os argv fs) _ post Hcut)
    as (Hpre & Hpost & Hfin & args & ffmpeg & Hparse & Hwhich & Hcmd & _).
  eauto 10.
Qed.

(** X3: what the extraction subprocess starts from: [<out>/images] is a
    directory, the input video is there, every file of the initial tree is
    there with its content, and without [--overwrite] (the tool is then told
    [-n], never to overwrite) no frame file is there. *)
Theorem extractor_start_conditions os argv fs pre cmd before proc after post :
  trace (run os argv fs) = (pre ++ EvRun cmd before proc after :: post)%list ->
  exists args,
    parse_args os argv = inr args
    /\ is_dir (images_dir os args) before = true
    /\ path_exists (video_path os args) before = true
    /\ (forall q content, lookup q fs = Some (File content) ->
                          lookup q before = Some (File content))
    /\ (overwrite args = false ->
        nth 1 cmd "" = "-n"
        /\ glob_names os (images_dir os args) "frame_*.png" before = []).
Proof.
  intros Hcut.
  destruct (all_cuts_sound _ pre [] _ (extractor_cuts os argv fs) _ post Hcut)
    as (_ & _ & _ & args & ffmpeg & Hparse & _ & Hcmd & Hmk & Hvid & Hguard).
  exists args. repeat split.
  - exact Hparse.
  - exact (mkdir_tree_is_dir _ _ _ _ _ Hmk).
  - exact (mkdir_tree_keeps_paths _ _ _ _ _ _ Hmk Hvid).
  - intros q content Hq. exact (mkdir_tree_keeps _ _ _ _ _ Hmk q _ Hq).
  - subst cmd. unfold extract_cmd. rewrite H. reflexivity.
  - auto.
Qed.

Lemma extractor_single_subprocess_witness :
  final_fs (run Demo.ffmpeg_one_frame Demo.argv_extract Demo.fs_video)
  = Demo.put ["data"; "job"; "images"; "frame_00001.png"] (File "new")
      (Demo.put ["data"; "job"; "images"] (Dir []) Demo.fs_video).
Proof.
  eapply (extractor_single_subprocess Demo.ffmpeg_one_frame Demo.argv_extract Demo.fs_video
            (firstn 5 (trace (run Demo.ffmpeg_one_frame Demo.argv_extract Demo.fs_video)))).
  cbv. reflexivity.
Defined.

Lemma extractor_start_conditions_witness :
  exists args,
    parse_args Demo.idle Demo.argv_extract = inr args
    /\ is_dir (images_dir Demo.idle args)
         (Demo.put ["data"; "job"; "images"] (Dir []) Demo.fs_video) = true
    /\ path_exists (video_path Demo.idle args)
         (Demo.put ["data"; "job"; "images"] (Dir []) Demo.fs_video) = true
    /\ (forall q content,
          lookup q Demo.fs_video = Some (File content) ->
          lookup q (Demo.put ["data"; "job"; "images"] (Dir []) Demo.fs_video)
          = Some (File content))
    /\ (overwrite args = false ->
        nth 1 (extract_cmd Demo.idle "/usr/bin/ffmpeg" args) "" = "-n"
        /\ glob_names Demo.idle (images_dir Demo.idle args) "frame_*.png"
             (Demo.put ["data"; "job"; "images"] (Dir []) Demo.fs_video) = []).
Proof.
  destruct (extractor_start_conditions Demo.idle Demo.argv_extract Demo.fs_video
              (firstn 5 (trace (run Demo.idle Demo.argv_extract Demo.fs_video)))
              (extract_cmd Demo.idle "/usr/bin/ffmpeg"
                 (mkArgs "/data/v.mp4" "/data/job" 10 false))
              (Demo.put ["data"; "job"; "images"] (Dir []) Demo.fs_video)
              Demo.ok
              (Demo.put ["data"; "job"; "images"] (Dir []) Demo.fs_video)
              (skipn 6 (trace (run Demo.idle Demo.argv_extract Demo.fs_video)))
              eq_refl) as (args & Hparse & H).
  injection Hparse as <-.
  exists (mkArgs "/data/v.mp4" "/data/job" 10 false).
  split; [reflexivity | exact H].
Defined.

(** X4: exit status 0 with arguments that parsed means that the extraction
    subprocess ended with status 0 and left the tree the run ends with, that
    at least one frame file is in [<out>/images] in that tree, and that the
    last line printed reports the number of frame files in it. *)
Theorem extractor_success_means_frames os argv args fs :
  parse_args os argv = inr args ->
  exit_code (run os argv fs) = 0%Z ->
  glob_names os (images_dir os args) "frame_*.png" (final_fs (run os argv fs)) <> []
  /\ (exists cmd before proc,
         In (EvRun cmd before proc (final_fs (run os argv fs))) (trace (run os argv fs))
         /\ returncode proc = 0%Z)
  /\ last (trace (run os argv fs)) (EvPrint "")
     = EvPrint ("完成，生成帧数: "
                ++ str_nat (length (glob_names os (images_dir os args) "frame_*.png"
                                      (final_fs (run os argv fs))))
                ++ "，输出目录: " ++ str_path (images_dir os args)).
Proof.
  intros Hparse.
  unfold run, main, extract, ensure_ffmpeg, bind, lift, ret, raise, shutil_which,
    exists_, mkdir, glob, print, print_err, when_text, emit, subprocess_run, sys_exit,
    exit_code, final_fs, trace.
  rewrite Hparse. simpl.
  repeat extractor_step; intros Hcode; try discriminate Hcode;
    try (vm_compute in Hcode; discriminate Hcode);
    try (exfalso; match goal with
                  | H : (returncode ?p =? 0)%Z = false |- _ =>
                      apply Z.eqb_neq in H; exact (exit_status_returncode p H Hcode)
                  end);
    (split; [|split]);
    try match goal with
        | H : nonempty (sorted _) = true |- _ <> [] =>
            rewrite sorted_nonempty in H; intros Hnil; rewrite Hnil in H; discriminate H
        end;
    try (do 3 eexists; split;
         [repeat first [left; reflexivity | right] | apply Z.eqb_eq; assumption]);
    try (rewrite sorted_length; reflexivity).
Qed.

Lemma extractor_success_means_frames_witness :
  glob_names Demo.ffmpeg_one_frame ["data"; "job"; "images"] "frame_*.png"
    (final_fs (run Demo.ffmpeg_one_frame Demo.argv_extract Demo.fs_video)) <> [].
Proof.
  apply (extractor_success_means_frames Demo.ffmpeg_one_frame Demo.argv_extract
           (mkArgs "/data/v.mp4" "/data/job" 10 false) Demo.fs_video).
  - reflexivity.
  - reflexivity.
Defined.

(** X5: when the input video does not exist, the run exits with status 1
    without creating a directory or starting a subprocess, and the file tree
    is unchanged; with ffmpeg on PATH the last event is the message on
    standard error. *)
Theorem missing_video_changes_nothing os argv args fs :
  parse_args os argv = inr args ->
  path_exists (video_path os args) fs = false ->
  exit_code (run os argv fs) = 1%Z
  /\ final_fs (run os argv fs) = fs
  /\ no_mutation (trace (run os argv fs)) = true
  /\ (truthy (which os "ffmpeg") = true ->
      last (trace (run os argv fs)) (EvPrint "")
      = EvPrintErr ("输入视频不存在: " ++ str_path (video_path os args))).
Proof.
  intros Hparse Hvid.
  unfold run, main, ensure_ffmpeg, bind, lift, ret, raise, shutil_which,
    exists_, print_err, emit, sys_exit, exit_code, final_fs, trace.
  rewrite Hparse. simpl.
  destruct (which os "ffmpeg") as [f|]; simpl; [destruct (f =? ""); simpl|];
    rewrite ?Hvid; simpl; repeat split; intros; discriminate.
Qed.

Lemma missing_video_changes_nothing_witness :
  exit_code (run Demo.idle Demo.argv_extract (Dir [])) = 1%Z
  /\ final_fs (run Demo.idle Demo.argv_extract (Dir [])) = Dir [].
Proof.
  destruct (missing_video_changes_nothing Demo.idle Demo.argv_extract
              (mkArgs "/data/v.mp4" "/data/job" 10 false) (Dir []) eq_refl eq_refl)
    as (H1 & H2 & _).
  split; assumption.
Defined.
End PrepareVideoMore.

(** * The command lines the two scripts accept *)

Lemma existsb_eqb_in (k : string) (l : list string) :
  existsb (String.eqb k) l = true <-> In k l.
Proof.
  rewrite existsb_exists. split.
  - intros (x & Hx & E). apply String.eqb_eq in E. subst x. exact Hx.
  - intros H. exists k. split; [exact H | apply String.eqb_refl].
Qed.

Lemma existsb_eqb_not_in (k : string) (l : list string) :
  ~ In k l -> existsb (String.eqb k) l = false.
Proof.
  intros H. destruct (existsb (String.eqb k) l) eqn:E; [|reflexivity].
  apply existsb_eqb_in in E. contradiction.
Qed.

(** When no required option is missing, every required option is selected. *)
Lemma missing_required_none (parser : list Argument) (sel : list (string * value)) :
  missing_required parser sel = false ->
  forall a, In a parser -> required a = true -> In (dest a) (map fst sel).
Proof.
  unfold missing_required. intros H a Ha Hreq.
  destruct (existsb (String.eqb (dest a)) (map fst sel)) eqn:E.
  - apply existsb_eqb_in. exact E.
  - assert (Hex : existsb (fun a => required a
                                    && negb (existsb (String.eqb (dest a)) (map fst sel)))
                    parser = true).
    { apply existsb_exists. exists a. split; [exact Ha|]. rewrite Hreq, E. reflexivity. }
    congruence.
Qed.

Module ExtractorArgs.
Import prepare_video.

Local Arguments exit_status : simpl never.
Local Arguments String.eqb : simpl never.

(** X6: whatever argparse makes of the tokens, the Frame Extractor accepts a
    command line only if that reading selects [--video] and [--out] and
    leaves no token unplaced; on an accepted command line the frame rate is
    10 unless [--fps] is selected and overwriting is off unless [--overwrite]
    is selected; and a command line whose reading lacks [--video] or [--out]
    or leaves a token unplaced ends the run at once with status 2: nothing is
    looked up, created or started. *)
Theorem extractor_arguments os argv s :
  argparse_scan os parser argv = inr s ->
  (forall args,
      parse_args os argv = inr args ->
      In "video" (map fst (selected s))
      /\ In "out" (map fst (selected s))
      /\ extras s = []
      /\ (~ In "fps" (map fst (selected s)) -> fps args = 10%Z)
      /\ (~ In "overwrite" (map fst (selected s)) -> overwrite args = false))
  /\ (~ In "video" (map fst (selected s)) \/ ~ In "out" (map fst (selected s))
      \/ extras s <> [] ->
      forall fs, run os argv fs = (2%Z, fs, [])).
Proof.
  intros Hscan. split.
  - intros args. unfold parse_args, parse_namespace. rewrite Hscan.
    destruct (missing_required parser (selected s)) eqn:Hreq; [discriminate|].
    destruct (nonempty (extras s)) eqn:Hext; [discriminate|].
    unfold namespace_of. intros Hargs.
    pose proof (missing_required_none _ _ Hreq) as Hsel.
    split; [apply (Hsel (mkArgument "--video" Store TStr None true VNone));
            [simpl; auto | reflexivity]|].
    split; [apply (Hsel (mkArgument "--out" Store TStr None true VNone));
            [simpl; auto | reflexivity]|].
    split; [apply nonempty_false; exact Hext|].
    split; intros Hno;
      rewrite (store_selected_other _ _ _ Hno) in Hargs;
      match type of Hargs with
      | context [assoc ?k (initial_namespace parser)] =>
          let v := eval vm_compute in (assoc k (initial_namespace parser)) in
          change (assoc k (initial_namespace parser)) with v in Hargs
      end;
      repeat match type of Hargs with
             | match ?x with _ => _ end = _ => destruct x; try discriminate
             end;
      injection Hargs as <-; reflexivity.
  - intros Hbad fs.
    assert (Hrefused : parse_args os argv = usage_error).
    { unfold parse_args, parse_namespace. rewrite Hscan.
      destruct Hbad as [H|[H|H]].
      - unfold missing_required, dest. simpl. rewrite (existsb_eqb_not_in _ _ H). reflexivity.
      - unfold missing_required, dest. simpl. rewrite (existsb_eqb_not_in _ _ H).
        rewrite orb_true_r. reflexivity.
      - destruct (missing_required parser (selected s)); [reflexivity|].
        rewrite (nonempty_true _ H). reflexivity. }
    unfold run, main, bind, lift. rewrite Hrefused. reflexivity.
Qed.

Lemma extractor_arguments_witness :
  run Demo.idle ["--video"; "/data/v.mp4"] Demo.fs_video = (2%Z, Demo.fs_video, []).
Proof.
  apply (proj2 (extractor_arguments Demo.idle ["--video"; "/data/v.mp4"]
                  (mkScan [("video", VStr "/data/v.mp4")] []) eq_refl)).
  right. left. intros [H|[]]. discriminate H.
Defined.
End ExtractorArgs.

Module RunnerArgs.
Import run_colmap.

Local Arguments exit_status : simpl never.
Local Arguments String.eqb : simpl never.

(** X9: whatever argparse makes of the tokens, the Reconstruction Runner
    accepts a command line only if that reading selects [--images] and
    [--out] and leaves no token unplaced; on an accepted command line the
    thread count is 8 unless [--threads] is selected and the single-camera
    switch is off unless [--single_camera] is selected; and a command line
    whose reading lacks [--images] or [--out] or leaves a token unplaced ends
    the run at once with status 2: nothing is looked up, created or
    started. *)
Theorem runner_arguments os argv s :
  argparse_scan os parser argv = inr s ->
  (forall args,
      parse_args os argv = inr args ->
      In "images" (map fst (selected s))
      /\ In "out" (map fst (selected s))
      /\ extras s = []
      /\ (~ In "threads" (map fst (selected s)) -> threads args = 8%Z)
      /\ (~ In "single_camera" (map fst (selected s)) -> single_camera args = false))
  /\ (~ In "images" (map fst (selected s)) \/ ~ In "out" (map fst (selected s))
      \/ extras s <> [] ->
      forall fs, run os argv fs = (2%Z, fs, [])).
Proof.
  intros Hscan. split.
  - intros args. unfold parse_args, parse_namespace. rewrite Hscan.
    destruct (missing_required parser (selected s)) eqn:Hreq; [discriminate|].
    destruct (nonempty (extras s)) eqn:Hext; [discriminate|].
    unfold namespace_of. intros Hargs.
    pose proof (missing_required_none _ _ Hreq) as Hsel.
    split; [apply (Hsel (mkArgument "--images" Store TStr None true VNone));
            [simpl; auto | reflexivity]|].
    split; [apply (Hsel (mkArgument "--out" Store TStr None true VNone));
            [simpl; auto | reflexivity]|].
    split; [apply nonempty_false; exact Hext|].
    split; intros Hno;
      rewrite (store_selected_other _ _ _ Hno) in Hargs;
      match type of Hargs with
      | context [assoc ?k (initial_namespace parser)] =>
          let v := eval vm_compute in (assoc k (initial_namespace parser)) in
          change (assoc k (initial_namespace parser)) with v in Hargs
      end;
      repeat match type of Hargs with
             | match ?x with _ => _ end = _ => destruct x; try discriminate
             end;
      injection Hargs as <-; reflexivity.
  - intros Hbad fs.
    assert (Hrefused : parse_args os argv = usage_error).
    { unfold parse_args, parse_namespace. rewrite Hscan.
      destruct Hbad as [H|[H|H]].
      - unfold missing_required, dest. simpl. rewrite (existsb_eqb_not_in _ _ H). reflexivity.
      - unfold missing_required, dest. simpl. rewrite (existsb_eqb_not_in _ _ H).
        rewrite orb_true_r. reflexivity.
      - destruct (missing_required parser (selected s)); [reflexivity|].
        rewrite (nonempty_true _ H). reflexivity. }
    unfold run, main, bind, lift. rewrite Hrefused. reflexivity.
Qed.

Lemma runner_arguments_witness :
  run Demo.idle ["--images"; "/data/job/images"; "--out"; "/data/job"; "extra"]
    Demo.fs_frames
  = (2%Z, Demo.fs_frames, []).
Proof.
  apply (proj2 (runner_arguments Demo.idle
                  ["--images"; "/data/job/images"; "--out"; "/data/job"; "extra"]
                  (mkScan [("images", VStr "/data/job/images"); ("out", VStr "/data/job")]
                     ["extra"])
                  eq_refl)).
  right. right. discriminate.
Defined.
End RunnerArgs.

Lemma runs_app (t1 t2 : list event) : runs (t1 ++ t2)%list = (runs t1 ++ runs t2)%list.
Proof. apply flat_map_app. Qed.

Lemma runs_no_run (t : list event) : no_run t = true -> runs t = [].
Proof.
  induction t as [|e t IH]; simpl; [reflexivity|].
  intros H. apply andb_true_iff in H as [He Ht].
  destruct e; try discriminate He; simpl; auto.
Qed.

Lemma only_reads_quiet (t : list event) : only_reads t = true -> no_mutation t = true.
Proof.
  unfold only_reads, no_mutation. intros H.
  apply forallb_forall. intros e He.
  apply (proj1 (forallb_forall _ _) H) in He. destruct e; try discriminate; reflexivity.
Qed.

(** * More on the Reconstruction Runner *)
Module RunColmapMore.
Import run_colmap.

Local Arguments String.append : simpl never.
Local Arguments str_path : simpl never.
Local Arguments str_int : simpl never.
Local Arguments join_cmd : simpl never.
Local Arguments returncode : simpl never.
Local Arguments exit_status : simpl never.

(** [ensure_colmap] leaves the tree as it is, only looks, and what it raises
    is an [Exception]. *)
Lemma ensure_colmap_outcome os fs :
  exists r t,
    ensure_colmap os fs = (r, fs, t)
    /\ only_reads t = true
    /\ match r with
       | inl e => is_Exception e = true
       | inr _ => True
       end.
Proof.
  unfold ensure_colmap, bind, lift, ret, raise.
  destruct (parents (script_file os) 1) as [here|]; simpl; [|eauto 6].
  unfold candidates, first_existing, bind, exists_, ret, raise, shutil_which.
  repeat match goal with
         | |- context [path_exists ?p fs] => destruct (path_exists p fs); simpl; eauto 6
         end.
  destruct (which os "colmap") as [c|]; [destruct (c =? "")|]; simpl; eauto 6.
Qed.

Ltac runner_step :=
  match goal with
  | |- context [os_error ?e _] => destruct e
  | |- context [path_exists ?p ?f] => destruct (path_exists p f) eqn:?
  | |- context [mkdir_tree ?a ?b ?p ?f] => destruct (mkdir_tree a b p f) eqn:?
  | |- context [spawn ?o ?c ?f] => destruct (spawn o c f) as [? ?] eqn:?
  | |- context [(returncode ?p =? 0)%Z] => destruct (returncode p =? 0)%Z eqn:?
  | |- context [stdout ?p =? ""] => destruct (stdout p =? "") eqn:?
  | |- context [stderr ?p =? ""] => destruct (stderr p =? "") eqn:?
  | |- context [matcher ?a =? "sequential"] => destruct (matcher a =? "sequential") eqn:?
  end; simpl.

(** The runs of [main] on arguments that parsed, case by case; [t] names the
    events of [ensure_colmap]. *)
Ltac runner_unfold :=
  unfold run, main, bind, lift, ret, raise, exists_, mkdir, print, print_err, emit,
    sys_exit, exit_code, final_fs, trace.

Ltac runner_cases os fs Ht :=
  let r := fresh "r" in
  let t := fresh "t" in
  let Hr := fresh "Hr" in
  simpl;
  destruct (ensure_colmap_outcome os fs) as (r & t & -> & Ht & Hr);
  destruct r as [[]|?]; try discriminate Hr; simpl;
  unfold run_cmd, match_cmd, bind, print, print_err, emit, subprocess_run, when_text,
    ret, raise, try_except;
  simpl;
  repeat runner_step;
  rewrite <- ?app_assoc; simpl.

Ltac cut_leaves Ht leaf :=
  apply only_reads_no_run in Ht;
  first [ apply all_cuts_no_run; exact Ht
        | apply all_cuts_app; [apply all_cuts_no_run_then; exact Ht|]; simpl; leaf ].

Ltac zero_codes :=
  repeat match goal with
         | H : (returncode _ =? 0)%Z = true |- _ => apply Z.eqb_eq in H
         | H : (returncode _ =? 0)%Z = false |- _ => apply Z.eqb_neq in H
         end.

(** X11: when the images folder does not exist, the run exits with status 1
    without creating a directory or starting a subprocess, and the file tree
    is unchanged. *)
Theorem missing_images_changes_nothing os argv args fs :
  parse_args os argv = inr args ->
  path_exists (images_path os args) fs = false ->
  exit_code (run os argv fs) = 1%Z
  /\ final_fs (run os argv fs) = fs
  /\ no_mutation (trace (run os argv fs)) = true.
Proof.
  intros Hparse Hmissing.
  runner_unfold. rewrite Hparse.
  runner_cases os fs Ht; try congruence;
    apply only_reads_quiet in Ht;
    unfold no_mutation in *; rewrite ?forallb_app, ?Ht; auto.
Qed.

Lemma missing_images_changes_nothing_witness :
  exit_code (run Demo.idle Demo.argv_colmap Demo.fs_video) = 1%Z
  /\ final_fs (run Demo.idle Demo.argv_colmap Demo.fs_video) = Demo.fs_video.
Proof.
  destruct (missing_images_changes_nothing Demo.idle Demo.argv_colmap
              (mkArgs "/data/job/images" "/data/job" "sequential" false 8)
              Demo.fs_video eq_refl eq_refl) as (H1 & H2 & _).
  split; assumption.
Defined.

Lemma logged_cuts os argv fs :
  all_cuts
    (on_run (fun pre cmd _ _ _ _ =>
               exists pre', pre = (pre' ++ [EvPrint ("Running: " ++ join_cmd cmd)])%list))
    [] (trace (run os argv fs)).
Proof.
  runner_unfold.
  destruct (parse_args os argv) as [[]|args]; simpl; try (repeat split; exact I).
  runner_cases os fs Ht;
    cut_leaves Ht ltac:(repeat match goal with
                               | |- _ /\ _ => split
                               | |- True => exact I
                               | |- exists _, _ => eexists; reflexivity
                               end).
Qed.

(** X12: every subprocess is announced before it runs: the event just before
    it is the line [Running: <the command line>] on standard output. *)
Theorem every_command_is_logged_first os argv fs pre cmd before proc after post :
  trace (run os argv fs) = (pre ++ EvRun cmd before proc after :: post)%list ->
  exists pre', pre = (pre' ++ [EvPrint ("Running: " ++ join_cmd cmd)])%list.
Proof.
  intros Hcut.
  exact (all_cuts_sound _ pre [] _ (logged_cuts os argv fs) _ post Hcut).
Qed.

Lemma every_command_is_logged_first_witness :
  exists pre',
    firstn 8 (trace (run Demo.idle Demo.argv_colmap Demo.fs_frames))
    = (pre' ++ [EvPrint ("Running: "
                         ++ join_cmd (feat_cmd Demo.idle "/usr/bin/colmap"
                                        (mkArgs "/data/job/images" "/data/job"
                                           "sequential" false 8)))])%list.
Proof.
  eapply (every_command_is_logged_first Demo.idle Demo.argv_colmap Demo.fs_frames
            (firstn 8 (trace (run Demo.idle Demo.argv_colmap Demo.fs_frames)))
            (feat_cmd Demo.idle "/usr/bin/colmap"
               (mkArgs "/data/job/images" "/data/job" "sequential" false 8))).
  cbv. reflexivity.
Defined.

(** X13: the wrapper changes nothing between or after the stages: each
    subprocess of a run starts from the tree the one before it left, and the
    run ends with the tree the last one left. *)
Theorem stages_share_one_tree os argv fs :
  linked (runs (trace (run os argv fs))) (final_fs (run os argv fs)).
Proof.
  runner_unfold.
  destruct (parse_args os argv) as [[]|args]; simpl; try exact I.
  runner_cases os fs Ht;
    apply only_reads_no_run in Ht;
    rewrite ?runs_app, (runs_no_run _ Ht); simpl; auto.
Qed.

(** X14: the subprocesses of a run are, in this order and each once, an
    initial part of the four stage commands (feature extraction, matching,
    mapping, model conversion), every one of them with the executable
    [ensure_colmap] returned; when [ensure_colmap] raises, no subprocess is
    started at all. *)
Theorem stages_run_in_order os argv args fs :
  parse_args os argv = inr args ->
  match fst (fst (ensure_colmap os fs)) with
  | inr colmap =>
      exists rest,
        [feat_cmd os colmap args; match_cmd os colmap args; mapper_cmd os colmap args;
         converter_cmd os colmap args]
        = (map (fun r => fst (fst (fst r))) (runs (trace (run os argv fs))) ++ rest)%list
  | inl _ => runs (trace (run os argv fs)) = []
  end.
Proof.
  intros Hparse. runner_unfold. rewrite Hparse.
  runner_cases os fs Ht;
    apply only_reads_no_run in Ht;
    rewrite ?runs_app, (runs_no_run _ Ht); simpl;
    first [ reflexivity | eexists; reflexivity ].
Qed.

Lemma stages_run_in_order_witness :
  exists rest,
    [feat_cmd (Demo.colmap_machine "mapper") "/usr/bin/colmap"
       (mkArgs "/data/job/images" "/data/job" "sequential" false 8);
     match_cmd (Demo.colmap_machine "mapper") "/usr/bin/colmap"
       (mkArgs "/data/job/images" "/data/job" "sequential" false 8);
     mapper_cmd (Demo.colmap_machine "mapper") "/usr/bin/colmap"
       (mkArgs "/data/job/images" "/data/job" "sequential" false 8);
     converter_cmd (Demo.colmap_machine "mapper") "/usr/bin/colmap"
       (mkArgs "/data/job/images" "/data/job" "sequential" false 8)]
    = (map (fun r => fst (fst (fst r)))
         (runs (trace (run (Demo.colmap_machine "mapper") Demo.argv_colmap
                         Demo.fs_frames))) ++ rest)%list.
Proof.
  exact (stages_run_in_order (Demo.colmap_machine "mapper") Demo.argv_colmap
           (mkArgs "/data/job/images" "/data/job" "sequential" false 8) Demo.fs_frames
           eq_refl).
Defined.

(** X15: exit status 0 with arguments that parsed means that feature
    extraction, matching and mapping were run, in this order, and each ended
    with status 0. *)
Theorem success_means_stages_succeeded os argv args fs :
  parse_args os argv = inr args ->
  exit_code (run os argv fs) = 0%Z ->
  exists colmap rest,
    map (fun r => (fst (fst (fst r)), returncode (snd (fst r))))
      (runs (trace (run os argv fs)))
    = ([(feat_cmd os colmap args, 0%Z); (match_cmd os colmap args, 0%Z);
        (mapper_cmd os colmap args, 0%Z)] ++ rest)%list.
Proof.
  intros Hparse. runner_unfold. rewrite Hparse.
  runner_cases os fs Ht; intros Hcode; try discriminate Hcode;
    apply only_reads_no_run in Ht;
    rewrite ?runs_app, (runs_no_run _ Ht); simpl;
    zero_codes;
    repeat match goal with
           | H : returncode _ = 0%Z |- _ => rewrite H; clear H
           end;
    eexists; eexists; reflexivity.
Qed.

Lemma success_means_stages_succeeded_witness :
  exists colmap rest,
    map (fun r => (fst (fst (fst r)), returncode (snd (fst r))))
      (runs (trace (run (Demo.colmap_machine "model_converter") Demo.argv_colmap
                      Demo.fs_frames)))
    = ([(feat_cmd (Demo.colmap_machine "model_converter") colmap
           (mkArgs "/data/job/images" "/data/job" "sequential" false 8), 0%Z);
        (match_cmd (Demo.colmap_machine "model_converter") colmap
           (mkArgs "/data/job/images" "/data/job" "sequential" false 8), 0%Z);
        (mapper_cmd (Demo.colmap_machine "model_converter") colmap
           (mkArgs "/data/job/images" "/data/job" "sequential" false 8), 0%Z)]
       ++ rest)%list.
Proof.
  apply (success_means_stages_succeeded (Demo.colmap_machine "model_converter")
           Demo.argv_colmap
           (mkArgs "/data/job/images" "/data/job" "sequential" false 8) Demo.fs_frames).
  - reflexivity.
  - reflexivity.
Defined.

Lemma start_cuts os argv fs :
  all_cuts
    (on_run (fun pre cmd before _ _ _ =>
               subcommand cmd = "feature_extractor" ->
               no_run pre = true
               /\ exists args fs1,
                    parse_args os argv = inr args
                    /\ path_exists (images_path os args) fs = true
                    /\ mkdir_tree true true (out_root os args) fs = inr fs1
                    /\ mkdir_tree false true (sparse_dir os args) fs1 = inr before))
    [] (trace (run os argv fs)).
Proof.
  runner_unfold.
  destruct (parse_args os argv) as [[]|args]; simpl; try (repeat split; exact I).
  runner_cases os fs Ht;
    cut_leaves Ht ltac:(repeat match goal with
                               | |- _ /\ _ => split
                               | |- True => exact I
                               | |- subcommand _ = "feature_extractor" -> _ =>
                                   let H := fresh in intros H; try discriminate H
                               | |- exists _, _ => eexists
                               | |- no_run _ = true =>
                                   unfold no_run; rewrite ?forallb_app;
                                   unfold no_run in Ht; rewrite Ht; reflexivity
                               | |- _ = _ => first [reflexivity | eassumption]
                               end).
Qed.

(** X16: what the first subprocess, feature extraction, starts from: the
    output root and its [sparse] subdirectory are directories, the images
    folder is there, and every file of the initial tree is there with its
    content; nothing was run before it. *)
Theorem runner_start_conditions os argv fs pre cmd before proc after post :
  trace (run os argv fs) = (pre ++ EvRun cmd before proc after :: post)%list ->
  subcommand cmd = "feature_extractor" ->
  no_run pre = true
  /\ exists args,
       parse_args os argv = inr args
       /\ is_dir (out_root os args) before = true
       /\ is_dir (sparse_dir os args) before = true
       /\ path_exists (images_path os args) before = true
       /\ (forall q content, lookup q fs = Some (File content) ->
                             lookup q before = Some (File content)).
Proof.
  intros Hcut Hsub.
  destruct (all_cuts_sound _ pre [] _ (start_cuts os argv fs) _ post Hcut Hsub)
    as (Hpre & args & fs1 & Hparse & Himg & Hmk1 & Hmk2).
  split; [exact Hpre|]. exists args. repeat split.
  - exact Hparse.
  - pose proof (mkdir_tree_is_dir _ _ _ _ _ Hmk1) as Hdir. unfold is_dir in Hdir.
    destruct (lookup (out_root os args) fs1) as [[c|es]|] eqn:E; try discriminate.
    exact (mkdir_tree_keeps _ _ _ _ _ Hmk2 _ _ E).
  - exact (mkdir_tree_is_dir _ _ _ _ _ Hmk2).
  - eapply mkdir_tree_keeps_paths; [exact Hmk2|].
    eapply mkdir_tree_keeps_paths; [exact Hmk1|exact Himg].
  - intros q content Hq.
    apply (mkdir_tree_keeps _ _ _ _ _ Hmk2 q (File content)).
    exact (mkdir_tree_keeps _ _ _ _ _ Hmk1 q (File content) Hq).
Qed.

Lemma runner_start_conditions_witness :
  no_run (firstn 8 (trace (run Demo.idle Demo.argv_colmap Demo.fs_frames))) = true.
Proof.
  eapply (runner_start_conditions Demo.idle Demo.argv_colmap Demo.fs_frames
            (firstn 8 (trace (run Demo.idle Demo.argv_colmap Demo.fs_frames)))).
  - cbv. reflexivity.
  - reflexivity.
Defined.

Lemma mapper_cuts os argv fs :
  all_cuts
    (on_run (fun _ cmd _ proc after post =>
               subcommand cmd = "mapper" -> returncode proc = 0%Z ->
               exists args colmap,
                 parse_args os argv = inr args
                 /\ cmd = mapper_cmd os colmap args
                 /\ (path_exists (model_dir os args) after = true ->
                     exists cproc cafter rest,
                       post = EvExists (model_dir os args) true
                              :: EvPrint ("Running: "
                                          ++ join_cmd (converter_cmd os colmap args))
                              :: EvRun (converter_cmd os colmap args) after cproc cafter
                              :: rest)
                 /\ (path_exists (model_dir os args) after = false ->
                     post = [EvExists (model_dir os args) false;
                             EvPrint ("Done. Sparse model at: "
                                      ++ str_path (model_dir os args))]
                     /\ exit_code (run os argv fs) = 0%Z)))
    [] (trace (run os argv fs)).
Proof.
  runner_unfold.
  destruct (parse_args os argv) as [[]|args]; simpl; try (repeat split; exact I).
  runner_cases os fs Ht;
    cut_leaves Ht ltac:(repeat match goal with
                               | |- _ /\ _ => split
                               | |- True => exact I
                               | |- subcommand _ = "mapper" -> _ =>
                                   let Hsub := fresh "Hsub" in
                                   let Hrc := fresh "Hrc" in
                                   intros Hsub Hrc; try discriminate Hsub;
                                   try (exfalso; apply Z.eqb_eq in Hrc; congruence)
                               | |- path_exists _ _ = _ -> _ =>
                                   let H := fresh in intros H; try congruence
                               | |- exists _, _ => eexists
                               | |- _ = _ => reflexivity
                               end).
Qed.

(** X17: after a mapping that ended with status 0, model conversion is started
    (on the tree mapping left) exactly when [<out>/sparse/0] exists in that
    tree; when it does not, nothing more is run and the run still reports
    success with exit status 0. *)
Theorem conversion_only_with_model os argv fs pre cmd before proc after post :
  trace (run os argv fs) = (pre ++ EvRun cmd before proc after :: post)%list ->
  subcommand cmd = "mapper" ->
  returncode proc = 0%Z ->
  exists args colmap,
    parse_args os argv = inr args
    /\ cmd = mapper_cmd os colmap args
    /\ (path_exists (model_dir os args) after = true ->
        exists cproc cafter rest,
          post = EvExists (model_dir os args) true
                 :: EvPrint ("Running: " ++ join_cmd (converter_cmd os colmap args))
                 :: EvRun (converter_cmd os colmap args) after cproc cafter
                 :: rest)
    /\ (path_exists (model_dir os args) after = false ->
        post = [EvExists (model_dir os args) false;
                EvPrint ("Done. Sparse model at: " ++ str_path (model_dir os args))]
        /\ exit_code (run os argv fs) = 0%Z).
Proof.
  intros Hcut.
  exact (all_cuts_sound _ pre [] _ (mapper_cuts os argv fs) _ post Hcut).
Qed.

Lemma conversion_only_with_model_witness :
  exists args colmap,
    parse_args Demo.idle Demo.argv_colmap = inr args
    /\ mapper_cmd Demo.idle "/usr/bin/colmap"
         (mkArgs "/data/job/images" "/data/job" "sequential" false 8)
       = mapper_cmd Demo.idle colmap args.
Proof.
  destruct (conversion_only_with_model Demo.idle Demo.argv_colmap Demo.fs_frames
              (firstn 12 (trace (run Demo.idle Demo.argv_colmap Demo.fs_frames)))
              (mapper_cmd Demo.idle "/usr/bin/colmap"
                 (mkArgs "/data/job/images" "/data/job" "sequential" false 8))
              (Demo.put ["data"; "job"; "sparse"] (Dir []) Demo.fs_frames)
              Demo.ok
              (Demo.put ["data"; "job"; "sparse"] (Dir []) Demo.fs_frames)
              (skipn 13 (trace (run Demo.idle Demo.argv_colmap Demo.fs_frames)))
              eq_refl eq_refl eq_refl) as (args & colmap & H1 & H2 & _).
  exists args, colmap. split; assumption.
Defined.
End RunColmapMore.
